(** * Nagar Rakshak: admin portal and notification gateway

    A shallow embedding of

    - [src/src/components/AdminPortal.tsx]: the complaint list with its
      filters and pagination, the statistics reduction and the two-step
      assignment workflow;
    - [src/supabase/functions/analyze-media/index.ts]: the HTTP handler
      that validates a credential-delivery request and sends or logs it.

    JavaScript numbers that hold counts, page numbers and row offsets are
    integers well below 2^53, where double arithmetic is exact: they are
    modelled in [Z].  Strings are [string]; [null] and [undefined] in a
    nullable column are [None]. *)

From Stdlib Require Import ZArith List String Ascii Bool Lia.
From Stdlib Require QArith.
Import ListNotations.

Local Open Scope string_scope.
Local Open Scope Z_scope.

Set Implicit Arguments.

(* ================================================================== *)
(** ** JavaScript strings *)

Module Js.

(** [!s] for a string: only the empty string is falsy. *)
Definition falsy (s : string) : bool :=
  match s with EmptyString => true | String _ _ => false end.

Definition truthy (s : string) : bool := negb (falsy s).

(** [s || d] for a nullable string: [null], [undefined] and the empty
    string all give [d]. *)
Definition or_else (s : option string) (d : string) : string :=
  match s with
  | None => d
  | Some v => if falsy v then d else v
  end.

(** Truthiness of a nullable string, as in [if (filters.status)]. *)
Definition truthy_opt (s : option string) : bool :=
  match s with None => false | Some v => truthy v end.

Definition is_upper (c : ascii) : bool :=
  let n := nat_of_ascii c in (Nat.leb 65 n) && (Nat.leb n 90).

Definition lower_char (c : ascii) : ascii :=
  if is_upper c then ascii_of_nat (nat_of_ascii c + 32) else c.

(** [String.prototype.toLowerCase].  The letters A-Z are mapped to a-z
    and every other byte is kept.  On text outside ASCII the JavaScript
    function also maps other letters, but the only character outside
    A-Z whose lower case is an ASCII letter is the Kelvin sign (to k),
    and none of the literals the portal compares with contains a k: on
    those comparisons this function and JavaScript's agree. *)
Fixpoint toLowerCase (s : string) : string :=
  match s with
  | EmptyString => EmptyString
  | String c r => String (lower_char c) (toLowerCase r)
  end.

Definition is_digit (c : ascii) : bool :=
  let n := nat_of_ascii c in (Nat.leb 48 n) && (Nat.leb n 57).

End Js.

(** Equality of two strings up to the case of their letters, character by
    character: the reading of "equals, case-insensitive". *)
Fixpoint eqb_ignore_case (s t : string) : bool :=
  match s, t with
  | EmptyString, EmptyString => true
  | String a s', String b t' =>
      Ascii.eqb (Js.lower_char a) (Js.lower_char b) && eqb_ignore_case s' t'
  | _, _ => false
  end.

(* ================================================================== *)
(** ** Rows of the two tables *)

(** A row of [complaints], with the columns the portal reads. *)
Record Complaint := {
  id : string;
  complaint_code : string;
  issue_type : option string;
  description : option string;
  city : option string;
  state : option string;
  status : option string;
  assigned_to : option string;
  created_at : option string
}.

(** The object inserted into [complaint_status_updates]. *)
Record StatusUpdate := {
  su_complaint_id : string;
  su_status : string;
  su_assigned_to : string;
  su_assigned_contact : string;
  su_note : string
}.

(** A row of the projection [select('status')]. *)
Record StatusRow := { row_status : option string }.

(* ================================================================== *)
(** ** StatsAggregator: the reduction of [fetchStats] *)

Record Stats := {
  pending : Z;
  inProgress : Z;
  resolved : Z;
  total : Z
}.

Definition stats0 : Stats :=
  {| pending := 0; inProgress := 0; resolved := 0; total := 0 |}.

(** [complaint.status?.toLowerCase()]: [undefined] on a null status. *)
Definition lowered (r : StatusRow) : option string :=
  option_map Js.toLowerCase (row_status r).

Definition is_lit (s : option string) (lit : string) : bool :=
  match s with None => false | Some v => String.eqb v lit end.

(** The callback given to [reduce]: an if / else-if chain on the lowered
    status, then [acc.total++] on every row. *)
Definition reducer (acc : Stats) (complaint : StatusRow) : Stats :=
  let status := lowered complaint in
  let acc1 :=
    if is_lit status "registered" then
      {| pending := pending acc + 1; inProgress := inProgress acc;
         resolved := resolved acc; total := total acc |}
    else if is_lit status "assigned" || is_lit status "in-progress" then
      {| pending := pending acc; inProgress := inProgress acc + 1;
         resolved := resolved acc; total := total acc |}
    else if is_lit status "resolved" then
      {| pending := pending acc; inProgress := inProgress acc;
         resolved := resolved acc + 1; total := total acc |}
    else acc in
  {| pending := pending acc1; inProgress := inProgress acc1;
     resolved := resolved acc1; total := total acc1 + 1 |}.

(** [data?.reduce(reducer, zero) || zero]: the reduction of the rows, and
    the zero counters when [data] is null. *)
Definition reduce_stats (data : option (list StatusRow)) : Stats :=
  match data with
  | Some rows => fold_left reducer rows stats0
  | None => stats0
  end.

(* ================================================================== *)
(** ** Programs with effects

    The handlers of the portal and of the gateway are asynchronous
    functions: they call the network, the console and the toast hook, and
    what they do next depends on the answers.  A handler is embedded as a
    tree of effects: [Vis e k] performs [e] and continues with [k] on the
    answer.  The environment (the database service, the SMS provider) is
    whatever answers the effects: theorems quantify over it. *)

Inductive prog (E : Type -> Type) (A : Type) : Type :=
| Ret (a : A)
| Vis (X : Type) (e : E X) (k : X -> prog E A).

Arguments Ret {E A} a.
Arguments Vis {E A X} e k.

Fixpoint bind {E : Type -> Type} {A B : Type}
         (p : prog E A) (f : A -> prog E B) : prog E B :=
  match p with
  | Ret a => f a
  | Vis e k => Vis e (fun x => bind (k x) f)
  end.

(** A value that was thrown: an [Error] object with its message, or
    anything else. *)
Inductive thrown :=
| ErrorObject (message : string)
| Value (repr : string).

(** How a block of statements ends: normally, or by a [throw]. *)
Inductive completion (A : Type) :=
| Normal (a : A)
| Throw (x : thrown).

Arguments Normal {A} a.
Arguments Throw {A} x.

(** The outcome of an awaited promise. *)
Inductive awaited (X : Type) :=
| Fulfilled (x : X)
| Rejected (reason : thrown).

Arguments Fulfilled {X} x.
Arguments Rejected {X} reason.

Section Exceptions.

Variable E : Type -> Type.

Definition block (A : Type) := prog E (completion A).

Definition ret {A} (a : A) : block A := Ret (Normal a).

Definition throw {A} (x : thrown) : block A := Ret (Throw x).

(** Sequencing: a [throw] skips what follows. *)
Definition seq {A B} (p : block A) (f : A -> block B) : block B :=
  bind p (fun c => match c with
                   | Normal a => f a
                   | Throw x => Ret (Throw x)
                   end).

(** An effect that answers directly. *)
Definition perform {X} (e : E X) : block X :=
  Vis e (fun x => Ret (Normal x)).

(** [await]: a rejected promise throws its reason. *)
Definition await {X} (e : E (awaited X)) : block X :=
  Vis e (fun r => match r with
                  | Fulfilled x => Ret (Normal x)
                  | Rejected reason => Ret (Throw reason)
                  end).

(** [try { body } catch (error) { handler }]. *)
Definition try_catch {A} (body : block A) (handler : thrown -> block A)
  : block A :=
  bind body (fun c => match c with
                      | Normal a => Ret (Normal a)
                      | Throw x => handler x
                      end).

(** [try { ... } finally { fin }]: [fin] runs on both ways out, and the
    completion of the body is kept when [fin] ends normally. *)
Definition finally {A} (body : block A) (fin : block unit) : block A :=
  bind body (fun c =>
    bind fin (fun f => match f with
                       | Normal _ => Ret c
                       | Throw x => Ret (Throw x)
                       end)).

(** [if (error) throw error]. *)
Definition throw_if (error : option thrown) : block unit :=
  match error with
  | Some e => throw e
  | None => ret tt
  end.

End Exceptions.

Arguments ret {E A} a.
Arguments throw {E A} x.
Arguments seq {E A B} p f.
Arguments perform {E X} e.
Arguments await {E X} e.
Arguments try_catch {E A} body handler.
Arguments finally {E A} body fin.
Arguments throw_if {E} error.

Declare Scope prog_scope.
Delimit Scope prog_scope with prog.
Notation "x <- p ;; q" := (seq p (fun x => q))
  (at level 61, p at next level, right associativity) : prog_scope.
Notation "p ;; q" := (seq p (fun _ => q))
  (at level 61, right associativity) : prog_scope.
Local Open Scope prog_scope.

(** *** Running a program against an environment *)

(** One performed effect with the answer it got. *)
Inductive event (E : Type -> Type) : Type :=
| Event (X : Type) (e : E X) (x : X).

Arguments Event {E X} e x.

Section Run.

Variable E : Type -> Type.

(** The environment: a state of its own and an answer to every effect. *)
Variable W : Type.
Variable answer : forall X, E X -> W -> X * W.

(** The result, the environment afterwards and the effects performed,
    in order. *)
Fixpoint run {A} (p : prog E A) (w : W) : A * W * list (event E) :=
  match p with
  | Ret a => (a, w, [])
  | Vis e k =>
      let '(x, w1) := answer e w in
      let '(a, w2, tr) := run (k x) w1 in
      (a, w2, Event e x :: tr)
  end.

Definition result {A} (p : prog E A) (w : W) : A := fst (fst (run p w)).

Definition trace {A} (p : prog E A) (w : W) : list (event E) :=
  snd (run p w).

End Run.

(* ================================================================== *)
(** ** The query interface of the database client *)

Module Postgrest.

(** The object given to [update]: the two columns the portal writes. *)
Record patch := {
  set_status : string;
  set_assigned_to : string
}.

(** What a request does: read columns (optionally with a count of all
    matching rows), update the matching rows, or insert a row. *)
Inductive operation :=
| Select (columns : string) (count_mode : option string)
| Update (values : patch)
| Insert (row : StatusUpdate).

(** A request under construction: each builder call adds to it. *)
Record query := {
  table : string;
  op : operation;
  eqs : list (string * string);
  rows : option (Z * Z);
  ordering : list (string * bool)
}.

(** [supabase.from(t).select(columns, { count })]. *)
Definition select (t columns : string) (count_mode : option string) : query :=
  {| table := t; op := Select columns count_mode;
     eqs := []; rows := None; ordering := [] |}.

(** [supabase.from(t).update(values)]. *)
Definition update (t : string) (values : patch) : query :=
  {| table := t; op := Update values;
     eqs := []; rows := None; ordering := [] |}.

(** [supabase.from(t).insert(row)]. *)
Definition insert (t : string) (row : StatusUpdate) : query :=
  {| table := t; op := Insert row;
     eqs := []; rows := None; ordering := [] |}.

(** [query.eq(column, value)]. *)
Definition eq (column value : string) (q : query) : query :=
  {| table := table q; op := op q;
     eqs := eqs q ++ [(column, value)];
     rows := rows q; ordering := ordering q |}.

(** [query.range(from, to)], both ends included. *)
Definition range (from to : Z) (q : query) : query :=
  {| table := table q; op := op q; eqs := eqs q;
     rows := Some (from, to); ordering := ordering q |}.

(** [query.order(column, { ascending })]. *)
Definition order (column : string) (ascending : bool) (q : query) : query :=
  {| table := table q; op := op q; eqs := eqs q; rows := rows q;
     ordering := ordering q ++ [(column, ascending)] |}.

(** What an awaited request resolves to. *)
Record response (Row : Type) := {
  data : option (list Row);
  error : option thrown;
  count : option Z
}.

End Postgrest.

(* ================================================================== *)
(** ** AdminPortal: state and effects *)

Record Filters := {
  filter_status : string;
  filter_issueType : string
}.

(** The [useState] cells of the component. *)
Record State := {
  complaints : list Complaint;
  stats : Stats;
  loading : bool;
  assignDialogOpen : bool;
  selectedComplaint : option Complaint;
  workerName : string;
  workerContact : string;
  statusNote : string;
  newStatus : string;
  filters : Filters;
  currentPage : Z;
  complaintsPerPage : Z;
  totalComplaints : Z
}.

(** The state of a freshly mounted component. *)
Definition initial : State :=
  {| complaints := []; stats := stats0; loading := true;
     assignDialogOpen := false; selectedComplaint := None;
     workerName := ""; workerContact := ""; statusNote := "";
     newStatus := ""; filters := {| filter_status := ""; filter_issueType := "" |};
     currentPage := 1; complaintsPerPage := 5; totalComplaints := 0 |}.

(** A call of one of the state setters. *)
Inductive setter :=
| setComplaints (v : list Complaint)
| setStats (v : Stats)
| setLoading (v : bool)
| setAssignDialogOpen (v : bool)
| setSelectedComplaint (v : option Complaint)
| setWorkerName (v : string)
| setWorkerContact (v : string)
| setStatusNote (v : string)
| setNewStatus (v : string)
| setFilters (v : Filters)
| setCurrentPage (v : Z)
| setTotalComplaints (v : Z).

Definition apply_setter (st : State) (s : setter) : State :=
  let '{| complaints := c; stats := s0; loading := l; assignDialogOpen := o;
          selectedComplaint := sc; workerName := wn; workerContact := wc;
          statusNote := sn; newStatus := ns; filters := f; currentPage := cp;
          complaintsPerPage := pp; totalComplaints := tc |} := st in
  match s with
  | setComplaints v => Build_State v s0 l o sc wn wc sn ns f cp pp tc
  | setStats v => Build_State c v l o sc wn wc sn ns f cp pp tc
  | setLoading v => Build_State c s0 v o sc wn wc sn ns f cp pp tc
  | setAssignDialogOpen v => Build_State c s0 l v sc wn wc sn ns f cp pp tc
  | setSelectedComplaint v => Build_State c s0 l o v wn wc sn ns f cp pp tc
  | setWorkerName v => Build_State c s0 l o sc v wc sn ns f cp pp tc
  | setWorkerContact v => Build_State c s0 l o sc wn v sn ns f cp pp tc
  | setStatusNote v => Build_State c s0 l o sc wn wc v ns f cp pp tc
  | setNewStatus v => Build_State c s0 l o sc wn wc sn v f cp pp tc
  | setFilters v => Build_State c s0 l o sc wn wc sn ns v cp pp tc
  | setCurrentPage v => Build_State c s0 l o sc wn wc sn ns f v pp tc
  | setTotalComplaints v => Build_State c s0 l o sc wn wc sn ns f cp pp v
  end.

(** The argument of [toast]. *)
Record ToastMsg := {
  title : string;
  toast_description : option string;
  variant : option string
}.

Definition destructive (t : string) : ToastMsg :=
  {| title := t; toast_description := None; variant := Some "destructive" |}.

(** The effects of the component: the three kinds of awaited request,
    the toast, the console and the state setters. *)
Inductive portalE : Type -> Type :=
| Await_complaints (q : Postgrest.query)
    : portalE (awaited (Postgrest.response Complaint))
| Await_statuses (q : Postgrest.query)
    : portalE (awaited (Postgrest.response StatusRow))
| Await_write (q : Postgrest.query)
    : portalE (awaited (Postgrest.response unit))
| Toast (t : ToastMsg) : portalE unit
| Console_error (label : string) (error : thrown) : portalE unit
| SetState (s : setter) : portalE unit.

Definition set (s : setter) : block portalE unit := perform (SetState s).
Definition toast (t : ToastMsg) : block portalE unit := perform (Toast t).
Definition console_error (label : string) (e : thrown) : block portalE unit :=
  perform (Console_error label e).

(* ================================================================== *)
(** ** AdminPortal: data fetching *)

(** [data || []]. *)
Definition data_or_empty {Row} (r : Postgrest.response Row) : list Row :=
  match Postgrest.data r with Some l => l | None => [] end.

(** [count || 0]. *)
Definition count_or_zero {Row} (r : Postgrest.response Row) : Z :=
  match Postgrest.count r with Some n => n | None => 0 end.

(** QueryBuilder: the request [fetchComplaints] builds from the filters
    and the page. *)
Definition complaints_query (st : State) (page : Z) : Postgrest.query :=
  let query := Postgrest.select "complaints" "*" (Some "exact") in
  let query :=
    if Js.truthy (filter_status (filters st))
    then Postgrest.eq "status" (filter_status (filters st)) query
    else query in
  let query :=
    if Js.truthy (filter_issueType (filters st))
    then Postgrest.eq "issue_type" (filter_issueType (filters st)) query
    else query in
  let from := (page - 1) * complaintsPerPage st in
  let to := from + complaintsPerPage st - 1 in
  Postgrest.order "created_at" false (Postgrest.range from to query).

Definition fetchComplaints (st : State) (page : Z) : block portalE unit :=
  finally
    (try_catch
       (set (setLoading true) ;;
        r <- await (Await_complaints (complaints_query st page)) ;;
        throw_if (Postgrest.error r) ;;
        set (setComplaints (data_or_empty r)) ;;
        set (setTotalComplaints (count_or_zero r)))
       (fun error =>
          console_error "Error fetching complaints:" error ;;
          toast (destructive "Error fetching complaints")))
    (set (setLoading false)).

Definition fetchStats : block portalE unit :=
  try_catch
    (r <- await (Await_statuses (Postgrest.select "complaints" "status" None)) ;;
     throw_if (Postgrest.error r) ;;
     set (setStats (reduce_stats (Postgrest.data r))))
    (fun error => console_error "Error fetching stats:" error).

(* ================================================================== *)
(** ** AdminPortal: the assignment workflow *)

Definition update_request (c : Complaint) (st : State) : Postgrest.query :=
  Postgrest.eq "id" (id c)
    (Postgrest.update "complaints"
       {| Postgrest.set_status := newStatus st;
          Postgrest.set_assigned_to := workerName st |}).

Definition insert_request (c : Complaint) (st : State) : Postgrest.query :=
  Postgrest.insert "complaint_status_updates"
    {| su_complaint_id := id c;
       su_status := newStatus st;
       su_assigned_to := workerName st;
       su_assigned_contact := workerContact st;
       su_note := statusNote st |}.

Definition handleAssignWorker (st : State) : block portalE unit :=
  match selectedComplaint st,
        Js.falsy (workerName st) || Js.falsy (workerContact st)
        || Js.falsy (newStatus st) with
  | Some c, false =>
      try_catch
        (u <- await (Await_write (update_request c st)) ;;
         throw_if (Postgrest.error u) ;;
         i <- await (Await_write (insert_request c st)) ;;
         throw_if (Postgrest.error i) ;;
         toast {| title := "Worker Assigned Successfully";
                  toast_description :=
                    Some (workerName st ++ " has been assigned to complaint "
                            ++ complaint_code c);
                  variant := None |} ;;
         set (setAssignDialogOpen false) ;;
         set (setWorkerName "") ;;
         set (setWorkerContact "") ;;
         set (setStatusNote "") ;;
         set (setNewStatus "") ;;
         set (setSelectedComplaint None))
        (fun error =>
           console_error "Error assigning worker:" error ;;
           toast (destructive "Error assigning worker"))
  | _, _ => toast (destructive "Please fill all fields")
  end.

Definition openAssignDialog (complaint : Complaint) : block portalE unit :=
  set (setSelectedComplaint (Some complaint)) ;;
  set (setNewStatus (Js.or_else (status complaint) "")) ;;
  set (setWorkerName (Js.or_else (assigned_to complaint) "")) ;;
  set (setWorkerContact (Js.or_else (status complaint) "")) ;;
  set (setAssignDialogOpen true).

(* ================================================================== *)
(** ** AdminPortal: the controls that are rendered *)

(** [disabled={complaint.status === 'Resolved'}] on the Update button of
    a listed complaint. *)
Definition update_disabled (complaint : Complaint) : bool :=
  is_lit (status complaint) "Resolved".

(** The items of the status selector of the dialog. *)
Definition status_options : list string :=
  ["Assigned"; "In-Progress"; "Resolved"].

(** [disabled={currentPage === 1}]. *)
Definition previous_disabled (st : State) : bool :=
  currentPage st =? 1.

(** [disabled={currentPage * complaintsPerPage >= totalComplaints}]. *)
Definition next_disabled (st : State) : bool :=
  currentPage st * complaintsPerPage st >=? totalComplaints st.

(** The body of the dialog is rendered when it is open and a complaint
    is selected. *)
Definition dialog_rendered (st : State) : bool :=
  assignDialogOpen st
  && match selectedComplaint st with Some _ => true | None => false end.

Definition mem (v : string) (l : list string) : bool :=
  existsb (String.eqb v) l.

(** What the user can do with the controls of the assignment workflow:
    the Update button of a listed complaint, the fields and the submit
    button of the dialog, and its dismissal. *)
Inductive interaction :=
| ClickUpdate (index : nat)
| ChooseNewStatus (value : string)
| EditWorkerName (value : string)
| EditWorkerContact (value : string)
| EditStatusNote (value : string)
| ClickUpdateStatus
| DismissDialog.

(** Whether the control is on the page and enabled. *)
Definition enabled (st : State) (i : interaction) : bool :=
  match i with
  | ClickUpdate index =>
      negb (loading st)
      && match nth_error (complaints st) index with
         | Some complaint => negb (update_disabled complaint)
         | None => false
         end
  | ChooseNewStatus value => dialog_rendered st && mem value status_options
  | EditWorkerName _ | EditWorkerContact _ | EditStatusNote _
  | ClickUpdateStatus => dialog_rendered st
  | DismissDialog => assignDialogOpen st
  end.

(** The handler behind each control. *)
Definition on (st : State) (i : interaction) : block portalE unit :=
  match i with
  | ClickUpdate index =>
      match nth_error (complaints st) index with
      | Some complaint => openAssignDialog complaint
      | None => ret tt
      end
  | ChooseNewStatus value => set (setNewStatus value)
  | EditWorkerName value => set (setWorkerName value)
  | EditWorkerContact value => set (setWorkerContact value)
  | EditStatusNote value => set (setStatusNote value)
  | ClickUpdateStatus => handleAssignWorker st
  | DismissDialog => set (setAssignDialogOpen false)
  end.

(* ================================================================== *)
(** ** AdminPortal: what a run did *)

Definition setter_of (ev : event portalE) : option setter :=
  match ev with
  | Event e _ =>
      match e with
      | SetState s => Some s
      | _ => None
      end
  end.

Definition toast_of (ev : event portalE) : option ToastMsg :=
  match ev with
  | Event e _ =>
      match e with
      | Toast t => Some t
      | _ => None
      end
  end.

(** A network call succeeded when its promise was fulfilled with a
    response that carries no error. *)
Definition succeeded {Row} (r : awaited (Postgrest.response Row)) : bool :=
  match r with
  | Fulfilled x =>
      match Postgrest.error x with None => true | Some _ => false end
  | Rejected _ => false
  end.

(** The request of a network call, whatever its kind, and whether it
    succeeded. *)
Definition call_of (ev : event portalE) : option (Postgrest.query * bool) :=
  match ev with
  | Event e x =>
      match e in portalE X return X -> option (Postgrest.query * bool) with
      | Await_complaints q => fun r => Some (q, succeeded r)
      | Await_statuses q => fun r => Some (q, succeeded r)
      | Await_write q => fun r => Some (q, succeeded r)
      | _ => fun _ => None
      end x
  end.

(** The answer to a request for complaints, and to one for statuses. *)
Definition complaints_answer_of (ev : event portalE)
  : option (awaited (Postgrest.response Complaint)) :=
  match ev with
  | Event e x =>
      match e in portalE X
            return X -> option (awaited (Postgrest.response Complaint)) with
      | Await_complaints _ => fun r => Some r
      | _ => fun _ => None
      end x
  end.

Definition statuses_answer_of (ev : event portalE)
  : option (awaited (Postgrest.response StatusRow)) :=
  match ev with
  | Event e x =>
      match e in portalE X
            return X -> option (awaited (Postgrest.response StatusRow)) with
      | Await_statuses _ => fun r => Some r
      | _ => fun _ => None
      end x
  end.

Fixpoint pick {A B} (f : A -> option B) (l : list A) : list B :=
  match l with
  | [] => []
  | a :: r =>
      match f a with
      | Some b => b :: pick f r
      | None => pick f r
      end
  end.

Definition setters (tr : list (event portalE)) : list setter :=
  pick setter_of tr.

Definition toasts (tr : list (event portalE)) : list ToastMsg :=
  pick toast_of tr.

Definition calls (tr : list (event portalE))
  : list (Postgrest.query * bool) :=
  pick call_of tr.

Definition requests (tr : list (event portalE)) : list Postgrest.query :=
  map fst (calls tr).

Definition complaints_answers (tr : list (event portalE))
  : list (awaited (Postgrest.response Complaint)) :=
  pick complaints_answer_of tr.

Definition statuses_answers (tr : list (event portalE))
  : list (awaited (Postgrest.response StatusRow)) :=
  pick statuses_answer_of tr.

(** The state once the setters called during a run have been applied. *)
Definition after (st : State) (tr : list (event portalE)) : State :=
  fold_left apply_setter (setters tr) st.

(* ================================================================== *)
(** ** RecordStore: the effect of acknowledged writes

    The tables live in the database service.  What the portal can rely
    on is that a write answered without error was applied, and that a
    write answered with an error, or whose promise was rejected, changed
    nothing. *)

Module RecordStore.

Record Store := {
  complaints_table : list Complaint;
  status_updates_table : list StatusUpdate
}.

Definition column (c : Complaint) (name : string) : option string :=
  if String.eqb name "id" then Some (id c)
  else if String.eqb name "complaint_code" then Some (complaint_code c)
  else if String.eqb name "issue_type" then issue_type c
  else if String.eqb name "status" then status c
  else if String.eqb name "assigned_to" then assigned_to c
  else None.

Definition selected (filter : list (string * string)) (c : Complaint) : bool :=
  forallb (fun f => is_lit (column c (fst f)) (snd f)) filter.

Definition patched (p : Postgrest.patch) (c : Complaint) : Complaint :=
  {| id := id c; complaint_code := complaint_code c;
     issue_type := issue_type c; description := description c;
     city := city c; state := state c;
     status := Some (Postgrest.set_status p);
     assigned_to := Some (Postgrest.set_assigned_to p);
     created_at := created_at c |}.

Definition apply_write (q : Postgrest.query) (db : Store) : Store :=
  match Postgrest.op q with
  | Postgrest.Update p =>
      if String.eqb (Postgrest.table q) "complaints" then
        {| complaints_table :=
             map (fun c => if selected (Postgrest.eqs q) c
                           then patched p c else c)
                 (complaints_table db);
           status_updates_table := status_updates_table db |}
      else db
  | Postgrest.Insert row =>
      if String.eqb (Postgrest.table q) "complaint_status_updates" then
        {| complaints_table := complaints_table db;
           status_updates_table := status_updates_table db ++ [row] |}
      else db
  | Postgrest.Select _ _ => db
  end.

Definition commit (db : Store) (ev : event portalE) : Store :=
  match ev with
  | Event e x =>
      match e in portalE X return X -> Store with
      | Await_write q => fun r => if succeeded r then apply_write q db else db
      | _ => fun _ => db
      end x
  end.

(** The tables after the writes of a run. *)
Definition replay (db : Store) (tr : list (event portalE)) : Store :=
  fold_left commit tr db.

End RecordStore.

(* ================================================================== *)
(** ** Regular expressions, as far as the gateway uses them *)

Module Regex.

Inductive re :=
| Bol                         (* ^ *)
| Eol                         (* $ *)
| Chr (c : ascii)             (* a literal character *)
| Digit                       (* \d *)
| Cat (r1 r2 : re)
| Times (n : nat) (r : re).   (* r{n} *)

(** A position in the input: whether it is the start, and what is left. *)
Definition position := (bool * string)%type.

(** Backtracking matcher: [m r p k] matches [r] at [p] and hands the
    position after the match to [k]. *)
Fixpoint m (r : re) (p : position) (k : position -> bool) : bool :=
  match r with
  | Bol => if fst p then k p else false
  | Eol => match snd p with EmptyString => k p | String _ _ => false end
  | Chr c =>
      match snd p with
      | String a rest => Ascii.eqb a c && k (false, rest)
      | EmptyString => false
      end
  | Digit =>
      match snd p with
      | String a rest => Js.is_digit a && k (false, rest)
      | EmptyString => false
      end
  | Cat r1 r2 => m r1 p (fun q => m r2 q k)
  | Times n r1 =>
      (fix times (n : nat) (p : position) : bool :=
         match n with
         | O => k p
         | S n' => m r1 p (times n')
         end) n p
  end.

(** A match starting at the current position or at any later one. *)
Fixpoint search (r : re) (at_start : bool) (s : string) : bool :=
  m r (at_start, s) (fun _ => true)
  || match s with
     | EmptyString => false
     | String _ rest => search r false rest
     end.

(** [RegExp.prototype.test] on a string. *)
Definition test (r : re) (s : string) : bool := search r true s.

End Regex.

(* ================================================================== *)
(** ** Base64, for [btoa] *)

Module Base64.

Definition alphabet : string :=
  "ABCDEFGHIJKLMNOPQRSTUVWXYZabcdefghijklmnopqrstuvwxyz0123456789+/".

Definition digit (n : N) : ascii :=
  match String.get (N.to_nat n) alphabet with
  | Some c => c
  | None => "="%char
  end.

Definition code (c : ascii) : N := N_of_ascii c.

Fixpoint encode (s : string) : string :=
  match s with
  | EmptyString => EmptyString
  | String a EmptyString =>
      let n := N.shiftl (code a) 16 in
      String (digit (N.shiftr n 18))
        (String (digit (N.land (N.shiftr n 12) 63)) "==")
  | String a (String b EmptyString) =>
      let n := N.lor (N.shiftl (code a) 16) (N.shiftl (code b) 8) in
      String (digit (N.shiftr n 18))
        (String (digit (N.land (N.shiftr n 12) 63))
           (String (digit (N.land (N.shiftr n 6) 63)) "="))
  | String a (String b (String c rest)) =>
      let n := N.lor (N.lor (N.shiftl (code a) 16) (N.shiftl (code b) 8))
                     (code c) in
      String (digit (N.shiftr n 18))
        (String (digit (N.land (N.shiftr n 12) 63))
           (String (digit (N.land (N.shiftr n 6) 63))
              (String (digit (N.land n 63)) (encode rest))))
  end.

End Base64.

(* ================================================================== *)
(** ** NotificationGateway: the handler given to [serve] *)

Module Gateway.

(** A number, kept as the text JavaScript prints for it and whether it
    is zero (the only falsy number a JSON text can denote). *)
Record number := {
  printed : string;
  is_zero : bool
}.

(** The values [req.json()] can produce, and [undefined] for a property
    that is not there. *)
#[local] Unset Elimination Schemes.
Inductive jsvalue :=
| Undefined
| JNull
| JBool (b : bool)
| JNumber (n : number)
| JString (s : string)
| JArray (items : list jsvalue)
| JObject (members : list (string * jsvalue)).
#[local] Set Elimination Schemes.

(** ToBoolean. *)
Definition truthy (v : jsvalue) : bool :=
  match v with
  | Undefined | JNull => false
  | JBool b => b
  | JNumber n => negb (is_zero n)
  | JString s => Js.truthy s
  | JArray _ | JObject _ => true
  end.

(** Whether a parsed object has a member of its own under [key]. *)
Fixpoint has_own (key : string) (members : list (string * jsvalue)) : bool :=
  match members with
  | [] => false
  | (k, _) :: rest => String.eqb k key || has_own key rest
  end.

(** The TypeError of ToPrimitive when neither [toString] nor [valueOf]
    gives a primitive value.  The text of the message is the engine's
    (here V8's). *)
Definition not_primitive : thrown :=
  ErrorObject "Cannot convert object to primitive value".

(** ToString, as applied by a template literal, by [RegExp.test] and by
    [URLSearchParams].  An object is converted by its [toString] method:
    a parsed object inherits the one that answers ["[object Object]"],
    unless it has a member of its own called [toString]; that member is a
    parsed value, never a function, the inherited [valueOf] answers the
    object itself, and the conversion throws.  An array is converted by
    [join], which converts its elements from left to right and takes
    [null] and [undefined] as the empty text. *)
Fixpoint join_texts (l : list (completion string)) : completion string :=
  match l with
  | [] => Normal ""
  | item :: r =>
      match item with
      | Throw e => Throw e
      | Normal first =>
          match r with
          | [] => Normal first
          | _ =>
              match join_texts r with
              | Throw e => Throw e
              | Normal others => Normal (first ++ "," ++ others)
              end
          end
      end
  end.

Fixpoint to_string (v : jsvalue) : completion string :=
  match v with
  | Undefined => Normal "undefined"
  | JNull => Normal "null"
  | JBool true => Normal "true"
  | JBool false => Normal "false"
  | JNumber n => Normal (printed n)
  | JString s => Normal s
  | JArray items =>
      join_texts (map (fun x => match x with
                                | Undefined | JNull => Normal ""
                                | _ => to_string x
                                end) items)
  | JObject members =>
      if has_own "toString" members then Throw not_primitive
      else Normal "[object Object]"
  end.

(** The member of a parsed object: when a key is repeated in the text
    the last one counts. *)
Fixpoint lookup (key : string) (members : list (string * jsvalue)) : jsvalue :=
  match members with
  | [] => Undefined
  | (k, v) :: rest =>
      match lookup key rest with
      | Undefined => if String.eqb k key then v else Undefined
      | found => found
      end
  end.

(** The property [key] of a value that is neither [null] nor
    [undefined]: a value that is not an object has none of the properties
    the handler asks for. *)
Definition property (v : jsvalue) (key : string) : jsvalue :=
  match v with
  | JObject members => lookup key members
  | _ => Undefined
  end.

Definition nullish (v : jsvalue) : bool :=
  match v with
  | Undefined | JNull => true
  | _ => false
  end.

(** [v.key]: a TypeError on [null] and [undefined].  The text of the
    message is the engine's (here V8's). *)
Definition nullish_name (v : jsvalue) : string :=
  match v with
  | JNull => "null"
  | _ => "undefined"
  end.

Definition member (v : jsvalue) (key : string) : completion jsvalue :=
  if nullish v then
    Throw (ErrorObject ("Cannot read properties of " ++ nullish_name v
                        ++ " (reading '" ++ key ++ "')"))
  else Normal (property v key).

Record FetchRequest := {
  url : string;
  method : string;
  headers : list (string * string);
  form : list (string * string)
}.

Record FetchResponse := { ok : bool }.

Inductive gatewayE : Type -> Type :=
| Req_json : gatewayE (awaited jsvalue)
| Fetch (r : FetchRequest) : gatewayE (awaited FetchResponse)
| Response_json : gatewayE (awaited jsvalue)
| Console_log (line : string) : gatewayE unit
| Console_error (label : string) (error : thrown) : gatewayE unit.

(** The three variables read from the environment when the module is
    loaded. *)
Record Env := {
  TWILIO_ACCOUNT_SID : option string;
  TWILIO_AUTH_TOKEN : option string;
  TWILIO_PHONE_NUMBER : option string
}.

Definition corsHeaders : list (string * string) :=
  [("Access-Control-Allow-Origin", "*");
   ("Access-Control-Allow-Headers",
    "authorization, x-client-info, apikey, content-type")].

(** The body of a response: a text, or [JSON.stringify] of a value. *)
Inductive body :=
| Text (s : string)
| Json (v : jsvalue).

Record Response := {
  status : Z;
  response_headers : list (string * string);
  response_body : body
}.

(** [/^\+91\d{10}$/]. *)
Definition phone_pattern : Regex.re :=
  Regex.Cat Regex.Bol
    (Regex.Cat (Regex.Chr "+")
       (Regex.Cat (Regex.Chr "9")
          (Regex.Cat (Regex.Chr "1")
             (Regex.Cat (Regex.Times 10 Regex.Digit) Regex.Eol)))).

Record Credentials := {
  phone : jsvalue;
  username : jsvalue;
  password : jsvalue
}.

Definition lift {A} (c : completion A) : block gatewayE A := Ret c.

(** [const { phone, username, password } = ...] and the input
    validation.  Destructuring [null] is a TypeError (with V8's text);
    [test] converts its argument to a text first, which can throw. *)
Definition validate (parsed : jsvalue) : completion Credentials :=
  if nullish parsed then
    Throw (ErrorObject
             ("Cannot destructure property 'phone' of '(intermediate value)' as it is "
              ++ nullish_name parsed ++ "."))
  else
    let phone := property parsed "phone" in
    let username := property parsed "username" in
    let password := property parsed "password" in
    if negb (truthy phone) || negb (truthy username)
       || negb (truthy password) then
      Throw (ErrorObject
               "Missing required parameters: phone, username, or password.")
    else
      match to_string phone with
      | Throw error => Throw error
      | Normal text =>
          if negb (Regex.test phone_pattern text) then
            Throw (ErrorObject
                     "Invalid phone number format. Expected '+91' followed by 10 digits.")
          else Normal {| phone := phone; username := username;
                         password := password |}
      end.

(** The text of the SMS, from the texts of the username and password. *)
Definition sms_message (username password : string) : string :=
  "Welcome to Nagar Rakshak! Your username is " ++ username
  ++ " and your password is " ++ password ++ ". Please keep them safe.".

(** The request to the provider, from the texts of its parts. *)
Definition sms_request (sid token from to message : string) : FetchRequest :=
  {| url := "https://api.twilio.com/2010-04-01/Accounts/" ++ sid
            ++ "/Messages.json";
     method := "POST";
     headers :=
       [("Authorization", "Basic " ++ Base64.encode (sid ++ ":" ++ token));
        ("Content-Type", "application/x-www-form-urlencoded")];
     form := [("To", to); ("From", from); ("Body", message)] |}.

(** The lines written to the log when the provider is not configured,
    from the texts of the three fields. *)
Definition fallback_log (phone username password : string) : list string :=
  ["--- Twilio credentials not found. Logging SMS content instead. ---";
   "--- SMS to " ++ phone ++ " ---";
   "Welcome to Nagar Rakshak!";
   "Your username: " ++ username;
   "Your password: " ++ password;
   "--- End of SMS ---"].

(** [console.log] of a line; a template literal in it is evaluated, and
    can throw, before the line is written. *)
Definition console_log (line : completion string) : block gatewayE unit :=
  text <- lift line ;;
  perform (Console_log text).

(** A template literal of one value after a fixed text. *)
Definition after_text (prefix : string) (v : jsvalue) : completion string :=
  match to_string v with
  | Throw error => Throw error
  | Normal text => Normal (prefix ++ text)
  end.

(** The fallback for local development, statement by statement. *)
Definition log_sms (c : Credentials) : block gatewayE unit :=
  console_log
    (Normal "--- Twilio credentials not found. Logging SMS content instead. ---") ;;
  console_log
    (match to_string (phone c) with
     | Throw error => Throw error
     | Normal text => Normal ("--- SMS to " ++ text ++ " ---")
     end) ;;
  console_log (Normal "Welcome to Nagar Rakshak!") ;;
  console_log (after_text "Your username: " (username c)) ;;
  console_log (after_text "Your password: " (password c)) ;;
  console_log (Normal "--- End of SMS ---").

(** [TWILIO_ACCOUNT_SID && TWILIO_AUTH_TOKEN && TWILIO_PHONE_NUMBER]. *)
Definition configured (env : Env) : bool :=
  Js.truthy_opt (TWILIO_ACCOUNT_SID env)
  && Js.truthy_opt (TWILIO_AUTH_TOKEN env)
  && Js.truthy_opt (TWILIO_PHONE_NUMBER env).

(** The SMS sending logic. *)
Definition send (env : Env) (c : Credentials) : block gatewayE unit :=
  if configured env then
    username_text <- lift (to_string (username c)) ;;
    password_text <- lift (to_string (password c)) ;;
    let message := sms_message username_text password_text in
    to <- lift (to_string (phone c)) ;;
    response <- await (Fetch (sms_request
                                (Js.or_else (TWILIO_ACCOUNT_SID env) "")
                                (Js.or_else (TWILIO_AUTH_TOKEN env) "")
                                (Js.or_else (TWILIO_PHONE_NUMBER env) "")
                                to message)) ;;
    if negb (ok response) then
      errorData <- await Response_json ;;
      message <- lift (member errorData "message") ;;
      detail <- lift (if truthy message then to_string message
                      else Normal "Failed to send SMS.") ;;
      throw (ErrorObject ("Twilio Error: " ++ detail))
    else ret tt
  else log_sms c.

Definition success_response : Response :=
  {| status := 200;
     response_headers := corsHeaders ++ [("Content-Type", "application/json")];
     response_body :=
       Json (JObject [("success", JBool true);
                      ("message", JString "Credentials sent successfully.")]) |}.

(** [error instanceof Error ? error.message : "An unknown error occurred"]. *)
Definition errorMessage (error : thrown) : string :=
  match error with
  | ErrorObject message => message
  | Value _ => "An unknown error occurred"
  end.

Definition error_response (error : thrown) : Response :=
  {| status := 400;
     response_headers := corsHeaders ++ [("Content-Type", "application/json")];
     response_body :=
       Json (JObject [("success", JBool false);
                      ("error", JString (errorMessage error))]) |}.

(** The handler, on the method of the request. *)
Definition serve (env : Env) (req_method : string) : block gatewayE Response :=
  if String.eqb req_method "OPTIONS" then
    ret {| status := 200; response_headers := corsHeaders;
           response_body := Text "ok" |}
  else
    try_catch
      (parsed <- await Req_json ;;
       c <- lift (validate parsed) ;;
       send env c ;;
       ret success_response)
      (fun error =>
         perform (Console_error "Error sending credentials:" error) ;;
         ret (error_response error)).

(** What a run of the handler did. *)
Definition fetch_of (ev : event gatewayE) : option FetchRequest :=
  match ev with
  | Event e _ =>
      match e with
      | Fetch r => Some r
      | _ => None
      end
  end.

Definition log_of (ev : event gatewayE) : option string :=
  match ev with
  | Event e _ =>
      match e with
      | Console_log line => Some line
      | _ => None
      end
  end.

(** What [req.json()] was answered. *)
Definition parsed_of (ev : event gatewayE) : option (awaited jsvalue) :=
  match ev with
  | Event e x =>
      match e in gatewayE X return X -> option (awaited jsvalue) with
      | Req_json => fun r => Some r
      | _ => fun _ => None
      end x
  end.

(** Whether the provider took the message: the [fetch] was fulfilled
    with a response that is [ok]. *)
Definition delivery_of (ev : event gatewayE) : option bool :=
  match ev with
  | Event e x =>
      match e in gatewayE X return X -> option bool with
      | Fetch _ => fun r => Some match r with
                                 | Fulfilled response => ok response
                                 | Rejected _ => false
                                 end
      | _ => fun _ => None
      end x
  end.

Definition fetches (tr : list (event gatewayE)) : list FetchRequest :=
  pick fetch_of tr.

Definition parsed_bodies (tr : list (event gatewayE))
  : list (awaited jsvalue) :=
  pick parsed_of tr.

Definition deliveries (tr : list (event gatewayE)) : list bool :=
  pick delivery_of tr.

Definition logged (tr : list (event gatewayE)) : list string :=
  pick log_of tr.

End Gateway.

(* ================================================================== *)
(** ** Environments for the scenarios *)

Module Scenario.

Definition refused {Row} : awaited (Postgrest.response Row) :=
  Fulfilled {| Postgrest.data := None;
               Postgrest.error := Some (ErrorObject "permission denied");
               Postgrest.count := None |}.

Definition served {Row} (l : list Row) : awaited (Postgrest.response Row) :=
  Fulfilled {| Postgrest.data := Some l;
               Postgrest.error := None;
               Postgrest.count := Some (Z.of_nat (List.length l)) |}.

(** A database service that holds the given rows and answers the
    successive network calls as the list of outcomes says ([true]: the
    call succeeds); once the list is used up every call succeeds. *)
Definition database (held : list Complaint) (X : Type) (e : portalE X)
           (plan : list bool) : X * list bool :=
  let outcome := match plan with b :: _ => b | [] => true end in
  match e in portalE X return X * list bool with
  | Await_complaints _ =>
      (if outcome then served held else refused, tl plan)
  | Await_statuses _ =>
      (if outcome
       then served (map (fun c => {| row_status := status c |}) held)
       else refused, tl plan)
  | Await_write _ => (if outcome then served [] else refused, tl plan)
  | Toast _ => (tt, plan)
  | Console_error _ _ => (tt, plan)
  | SetState _ => (tt, plan)
  end.

(** A database service whose complaints change between two requests
    for the list, as when another session works on them: each request
    for the list is answered with the next list of the plan; every call
    succeeds. *)
Definition changing (X : Type) (e : portalE X)
           (plan : list (list Complaint)) : X * list (list Complaint) :=
  let held := match plan with l :: _ => l | [] => [] end in
  match e in portalE X return X * list (list Complaint) with
  | Await_complaints _ => (served held, tl plan)
  | Await_statuses _ =>
      (served (map (fun c => {| row_status := status c |}) held), plan)
  | Await_write _ => (served [], plan)
  | Toast _ => (tt, plan)
  | Console_error _ _ => (tt, plan)
  | SetState _ => (tt, plan)
  end.

Definition complaint (i code : string) (s : option string) : Complaint :=
  {| id := i; complaint_code := code; issue_type := Some "Water Supply";
     description := None; city := Some "Pune"; state := Some "Maharashtra";
     status := s; assigned_to := None; created_at := None |}.

(** A page that lists the given complaints, once loaded. *)
Definition listing (l : list Complaint) : State :=
  apply_setter (apply_setter initial (setComplaints l)) (setLoading false).

(** The dialog open on a complaint, with the form filled in. *)
Definition form (c : Complaint) (name contact target : string) : State :=
  fold_left apply_setter
    [setSelectedComplaint (Some c); setAssignDialogOpen true;
     setWorkerName name; setWorkerContact contact; setNewStatus target]
    (listing [c]).

(** The provider and the request body of a call of the gateway. *)
Definition provider (parsed : Gateway.jsvalue) (accepts : bool)
           (X : Type) (e : Gateway.gatewayE X) (w : unit) : X * unit :=
  match e in Gateway.gatewayE X return X * unit with
  | Gateway.Req_json => (Fulfilled parsed, w)
  | Gateway.Fetch _ => (Fulfilled {| Gateway.ok := accepts |}, w)
  | Gateway.Response_json =>
      (Fulfilled (Gateway.JObject
                    [("message", Gateway.JString "Invalid 'To' number")]), w)
  | Gateway.Console_log _ => (tt, w)
  | Gateway.Console_error _ _ => (tt, w)
  end.

Definition request_body (p u w : string) : Gateway.jsvalue :=
  Gateway.JObject [("phone", Gateway.JString p);
                   ("username", Gateway.JString u);
                   ("password", Gateway.JString w)].

(** A complaint in progress, and one that is resolved. *)
Definition pothole : Complaint := complaint "c-17" "NR-0017" (Some "In-Progress").

Definition closed : Complaint := complaint "c-42" "NR-0042" (Some "Resolved").

(** The dialog on the pothole, about to send it back to Assigned. *)
Definition filled : State := form pothole "Asha" "9800000000" "Assigned".

(** A deployment without provider variables. *)
Definition no_provider : Gateway.Env :=
  {| Gateway.TWILIO_ACCOUNT_SID := None;
     Gateway.TWILIO_AUTH_TOKEN := None;
     Gateway.TWILIO_PHONE_NUMBER := None |}.

(** A body whose username is there and empty. *)
Definition empty_username : Gateway.jsvalue :=
  request_body "+911234567890" "" "s3cret".

Definition welcome : Gateway.jsvalue :=
  request_body "+911234567890" "asha" "s3cret".

(** A body whose username is the object [{"toString": 0}]. *)
Definition unconvertible_username : Gateway.jsvalue :=
  Gateway.JObject
    [("phone", Gateway.JString "+911234567890");
     ("username",
      Gateway.JObject
        [("toString",
          Gateway.JNumber {| Gateway.printed := "0";
                             Gateway.is_zero := true |})]);
     ("password", Gateway.JString "s3cret")].

Definition welcome_credentials : Gateway.Credentials :=
  {| Gateway.phone := Gateway.JString "+911234567890";
     Gateway.username := Gateway.JString "asha";
     Gateway.password := Gateway.JString "s3cret" |}.

(** Five complaints with the statuses of the statistics scenario. *)
Definition five : list Complaint :=
  map (fun s => complaint "c" "NR" (Some s))
      ["Registered"; "Registered"; "Assigned"; "Resolved"; "Unknown"].

(** The page that lists the pothole. *)
Definition pothole_page : State := listing [pothole].

End Scenario.

(* ================================================================== *)
(** ** Notions the statements use *)

(** The status of a row equals [lit], case-insensitively. *)
Definition has_status (lit : string) (r : StatusRow) : bool :=
  match row_status r with
  | Some v => eqb_ignore_case v lit
  | None => false
  end.

(** How many rows satisfy [f]. *)
Definition count_rows (f : StatusRow -> bool) (rows : list StatusRow) : Z :=
  Z.of_nat (List.length (filter f rows)).

(** A status that matches none of the known cases. *)
Definition unknown_status (r : StatusRow) : bool :=
  negb (has_status "Registered" r || has_status "Assigned" r
        || has_status "In-Progress" r || has_status "Resolved" r).

(** Rows with the given statuses. *)
Definition statuses (l : list string) : list StatusRow :=
  map (fun s => {| row_status := Some s |}) l.

(** What a row adds to a counter. *)
Definition bump (b : bool) : Z := if b then 1 else 0.

(** The equality predicate a filter stands for: none when the filter is
    empty. *)
Definition equality_predicate (column value : string)
  : list (string * string) :=
  if Js.truthy value then [(column, value)] else [].

(** The precondition of the workflow: a complaint is selected and the
    worker name, the worker contact and the target status are not
    empty. *)
Definition form_filled (st : State) (c : Complaint) : Prop :=
  selectedComplaint st = Some c
  /\ workerName st <> "" /\ workerContact st <> "" /\ newStatus st <> "".

(** The toast and the setters of a completed assignment. *)
Definition success_toast (st : State) (c : Complaint) : ToastMsg :=
  {| title := "Worker Assigned Successfully";
     toast_description :=
       Some (workerName st ++ " has been assigned to complaint "
               ++ complaint_code c);
     variant := None |}.

Definition form_reset : list setter :=
  [setAssignDialogOpen false; setWorkerName ""; setWorkerContact "";
   setStatusNote ""; setNewStatus ""; setSelectedComplaint None].

(** The four statuses of a complaint. *)
Definition status_values : list string :=
  ["Registered"; "Assigned"; "In-Progress"; "Resolved"].

Fixpoint all_digits (s : string) : bool :=
  match s with
  | EmptyString => true
  | String c r => Js.is_digit c && all_digits r
  end.

(** The text is "+91" followed by exactly ten digits. *)
Definition plus91_ten_digits (s : string) : Prop :=
  exists ds, s = "+91" ++ ds /\ String.length ds = 10%nat
             /\ all_digits ds = true.

(** The request the handler sends to the provider, given the texts of
    the phone, the username and the password. *)
Definition provider_request (env : Gateway.Env) (to username password : string)
  : Gateway.FetchRequest :=
  Gateway.sms_request (Js.or_else (Gateway.TWILIO_ACCOUNT_SID env) "")
                      (Js.or_else (Gateway.TWILIO_AUTH_TOKEN env) "")
                      (Js.or_else (Gateway.TWILIO_PHONE_NUMBER env) "")
                      to (Gateway.sms_message username password).

(** Every way a request other than a preflight can go. *)
Definition served_as (env : Gateway.Env) (resp : completion Gateway.Response)
           (tr : list (event Gateway.gatewayE)) : Prop :=
  match Gateway.parsed_bodies tr with
  | [Rejected reason] =>
      resp = Normal (Gateway.error_response reason)
      /\ Gateway.fetches tr = [] /\ Gateway.logged tr = []
  | [Fulfilled parsed] =>
      match Gateway.validate parsed with
      | Throw x =>
          resp = Normal (Gateway.error_response x)
          /\ Gateway.fetches tr = [] /\ Gateway.logged tr = []
      | Normal c =>
          if Gateway.configured env then
            Gateway.logged tr = []
            /\ match Gateway.to_string (Gateway.username c),
                     Gateway.to_string (Gateway.password c),
                     Gateway.to_string (Gateway.phone c) with
               | Normal username, Normal password, Normal to =>
                   Gateway.fetches tr = [provider_request env to username password]
                   /\ ((Gateway.deliveries tr = [true]
                        /\ resp = Normal Gateway.success_response)
                       \/ (Gateway.deliveries tr = [false]
                           /\ exists x, resp = Normal (Gateway.error_response x)))
               | Throw x, _, _
               | Normal _, Throw x, _
               | Normal _, Normal _, Throw x =>
                   Gateway.fetches tr = []
                   /\ Gateway.deliveries tr = []
                   /\ resp = Normal (Gateway.error_response x)
               end
          else
            Gateway.fetches tr = []
            /\ Gateway.deliveries tr = []
            /\ match Gateway.to_string (Gateway.phone c),
                     Gateway.to_string (Gateway.username c),
                     Gateway.to_string (Gateway.password c) with
               | Normal to, Normal username, Normal password =>
                   Gateway.logged tr = Gateway.fallback_log to username password
                   /\ resp = Normal Gateway.success_response
               | Throw x, _, _ =>
                   Gateway.logged tr = firstn 1 (Gateway.fallback_log "" "" "")
                   /\ resp = Normal (Gateway.error_response x)
               | Normal to, Throw x, _ =>
                   Gateway.logged tr = firstn 3 (Gateway.fallback_log to "" "")
                   /\ resp = Normal (Gateway.error_response x)
               | Normal to, Normal username, Throw x =>
                   Gateway.logged tr
                   = firstn 4 (Gateway.fallback_log to username "")
                   /\ resp = Normal (Gateway.error_response x)
               end
      end
  | _ => False
  end.

(** The field is in the body. *)
Definition present (parsed : Gateway.jsvalue) (key : string) : Prop :=
  Gateway.property parsed key <> Gateway.Undefined.

(** The field is in the body and its value is truthy: not null, false,
    zero or the empty string. *)
Definition supplied (parsed : Gateway.jsvalue) (key : string) : Prop :=
  Gateway.truthy (Gateway.property parsed key) = true.

Definition all_supplied (parsed : Gateway.jsvalue) : Prop :=
  supplied parsed "phone" /\ supplied parsed "username"
  /\ supplied parsed "password".

(** The value has a text (its conversion to a string does not throw). *)
Definition has_text (v : Gateway.jsvalue) (text : string) : Prop :=
  Gateway.to_string v = Normal text.

(** The text of the phone field is "+91" followed by ten digits. *)
Definition phone_ok (parsed : Gateway.jsvalue) : Prop :=
  exists text, has_text (Gateway.property parsed "phone") text
               /\ plus91_ten_digits text.

Definition missing_message : string :=
  "Missing required parameters: phone, username, or password.".

Definition format_message : string :=
  "Invalid phone number format. Expected '+91' followed by 10 digits.".

(** Some provider variable is not in the environment. *)
Definition credentials_absent (env : Gateway.Env) : Prop :=
  Gateway.TWILIO_ACCOUNT_SID env = None
  \/ Gateway.TWILIO_AUTH_TOKEN env = None
  \/ Gateway.TWILIO_PHONE_NUMBER env = None.

(* ================================================================== *)
(** ** AdminPortal: badges, filters and pagination *)

(** [getStatusColor]: a [switch] on the lowered status. *)
Definition getStatusColor (status : option string) : string :=
  let lowered := option_map Js.toLowerCase status in
  if is_lit lowered "registered" then "bg-civic-saffron/20 text-civic-saffron"
  else if is_lit lowered "assigned" then "bg-civic-blue/20 text-civic-blue"
  else if is_lit lowered "in-progress" then "bg-yellow-100 text-yellow-700"
  else if is_lit lowered "resolved" then "bg-civic-green/20 text-civic-green"
  else "bg-muted text-muted-foreground".

(** The items of the two filter selectors. *)
Definition issueTypes : list string :=
  ["Electricity"; "Water Supply"; "Garbage Collection"; "Road Repair";
   "Street Light"; "Public Transport"; "Noise Pollution"; "Others"].

Definition issue_filter_items : list string := "all" :: issueTypes.

Definition status_filter_items : list string :=
  ["all"; "Registered"; "Assigned"; "In-Progress"; "Resolved"].

(** [value === 'all' ? '' : value]. *)
Definition all_or (value : string) : string :=
  if String.eqb value "all" then "" else value.

(** [onValueChange] of the issue selector:
    [setFilters({ ...filters, issueType: ... }); setCurrentPage(1)]. *)
Definition onIssueTypeChange (st : State) (value : string)
  : block portalE unit :=
  set (setFilters {| filter_status := filter_status (filters st);
                     filter_issueType := all_or value |}) ;;
  set (setCurrentPage 1).

(** [onValueChange] of the status selector. *)
Definition onStatusFilterChange (st : State) (value : string)
  : block portalE unit :=
  set (setFilters {| filter_status := all_or value;
                     filter_issueType := filter_issueType (filters st) |}) ;;
  set (setCurrentPage 1).

(** [onClick] of the Previous and of the Next button. *)
Definition onPreviousClick (st : State) : block portalE unit :=
  set (setCurrentPage (currentPage st - 1)).

Definition onNextClick (st : State) : block portalE unit :=
  set (setCurrentPage (currentPage st + 1)).

(** The ceiling of [a / b] for a positive [b]. *)
Definition ceil_div (a b : Z) : Z := - ((- a) / b).

(** The page count of the label,
    [Math.ceil(totalComplaints / complaintsPerPage)].  The page size is
    positive, and on counts of this size the ceiling of the floating
    quotient is the ceiling of the exact one. *)
Definition page_count (st : State) : Z :=
  ceil_div (totalComplaints st) (complaintsPerPage st).

(** Everything that runs a handler of the component: the assignment
    controls, the two filter selectors, the two pagination buttons, and
    the two fetches that the effect and the realtime channel start, each
    taken as an event of its own that runs to its end. *)
Inductive page_event :=
| Assignment (i : interaction)
| ChooseIssueFilter (value : string)
| ChooseStatusFilter (value : string)
| ClickPrevious
| ClickNext
| FetchComplaints
| FetchStats.

(** Whether the event can happen in a state: a control must be rendered
    and enabled, a selector only yields its items. *)
Definition available (st : State) (ev : page_event) : bool :=
  match ev with
  | Assignment i => enabled st i
  | ChooseIssueFilter value => mem value issue_filter_items
  | ChooseStatusFilter value => mem value status_filter_items
  | ClickPrevious => negb (previous_disabled st)
  | ClickNext => negb (next_disabled st)
  | FetchComplaints | FetchStats => true
  end.

Definition handle (st : State) (ev : page_event) : block portalE unit :=
  match ev with
  | Assignment i => on st i
  | ChooseIssueFilter value => onIssueTypeChange st value
  | ChooseStatusFilter value => onStatusFilterChange st value
  | ClickPrevious => onPreviousClick st
  | ClickNext => onNextClick st
  | FetchComplaints => fetchComplaints st (currentPage st)
  | FetchStats => fetchStats
  end.

(** The states the component can be in: the one it mounts with, and the
    ones an available event leads to, whatever the environment answers. *)
Inductive reachable : State -> Prop :=
| reachable_initial : reachable initial
| reachable_step (st : State) (ev : page_event)
    (W : Type) (answer : forall X, portalE X -> W -> X * W) (w : W) :
    reachable st ->
    available st ev = true ->
    reachable (after st (trace answer (handle st ev) w)).

(** Whether a request writes: it updates or inserts. *)
Definition is_write (q : Postgrest.query) : bool :=
  match Postgrest.op q with
  | Postgrest.Select _ _ => false
  | Postgrest.Update _ | Postgrest.Insert _ => true
  end.

(** The write requests of a run. *)
Definition writes (tr : list (event portalE)) : list Postgrest.query :=
  filter is_write (requests tr).

(** The status an update request writes. *)
Definition written_status (q : Postgrest.query) : option string :=
  match Postgrest.op q with
  | Postgrest.Update values => Some (Postgrest.set_status values)
  | _ => None
  end.

(* ================================================================== *)
(** ** ComplaintMap *)

Module ComplaintMap.

(** A coordinate: a JavaScript number, by its value. *)
Definition coordinate : Type := QArith_base.Q.

(** ToBoolean of a number read from the database: false on zero only. *)
Definition nonzero (x : coordinate) : bool :=
  negb (QArith_base.Qnum x =? 0).

(** A row of the projection the map selects. *)
Record Row := {
  id : string;
  complaint_code : string;
  issue_type : option string;
  status : option string;
  gps_latitude : option coordinate;
  gps_longitude : option coordinate
}.

(** A request with its [not] filters: column, operator and value
    ([None] for [null]). *)
Record query := {
  selection : Postgrest.query;
  negated : list (string * string * option string)
}.

(** [query.not(column, operator, value)]. *)
Definition not (column operator : string) (value : option string)
           (q : query) : query :=
  {| selection := selection q;
     negated := negated q ++ [(column, operator, value)] |}.

(** The request of [fetchComplaintLocations]. *)
Definition locations_query : query :=
  not "gps_longitude" "is" None
    (not "gps_latitude" "is" None
       {| selection :=
            Postgrest.select "complaints"
              "id, complaint_code, issue_type, status, gps_latitude, gps_longitude"
              None;
          negated := [] |}).

(** The two [useState] cells. *)
Record State := {
  complaints : list Row;
  loading : bool
}.

Definition initial : State := {| complaints := []; loading := true |}.

Inductive setter :=
| setComplaints (v : list Row)
| setLoading (v : bool).

Definition apply_setter (st : State) (s : setter) : State :=
  match s with
  | setComplaints v => {| complaints := v; loading := loading st |}
  | setLoading v => {| complaints := complaints st; loading := v |}
  end.

Inductive mapE : Type -> Type :=
| Await_locations (q : query) : mapE (awaited (Postgrest.response Row))
| Console_error (label : string) (error : thrown) : mapE unit
| SetState (s : setter) : mapE unit.

Definition set (s : setter) : block mapE unit := perform (SetState s).

Definition fetchComplaintLocations : block mapE unit :=
  finally
    (try_catch
       (set (setLoading true) ;;
        r <- await (Await_locations locations_query) ;;
        throw_if (Postgrest.error r) ;;
        set (setComplaints (data_or_empty r)))
       (fun error =>
          perform (Console_error "Error fetching complaint locations:" error)))
    (set (setLoading false)).

(** A marker with its popup. *)
Record Marker := {
  key : string;
  position : coordinate * coordinate;
  popup_issue_type : option string;
  popup_complaint_code : string;
  popup_status : option string
}.

(** The callback of [complaints.map]: a marker when both coordinates
    are truthy, [null] otherwise. *)
Definition marker_of (complaint : Row) : option Marker :=
  match gps_latitude complaint, gps_longitude complaint with
  | Some latitude, Some longitude =>
      if nonzero latitude && nonzero longitude then
        Some {| key := id complaint;
                position := (latitude, longitude);
                popup_issue_type := issue_type complaint;
                popup_complaint_code := complaint_code complaint;
                popup_status := status complaint |}
      else None
  | _, _ => None
  end.

(** What the component renders: the skeleton while loading, then the
    map, given by its markers. *)
Inductive view :=
| Skeleton
| MapContainer (markers : list Marker).

Definition render (st : State) : view :=
  if loading st then Skeleton
  else MapContainer (pick marker_of (complaints st)).

Definition setter_of (ev : event mapE) : option setter :=
  match ev with
  | Event e _ =>
      match e with
      | SetState s => Some s
      | _ => None
      end
  end.

(** The request of a network call and whether it succeeded. *)
Definition call_of (ev : event mapE) : option (query * bool) :=
  match ev with
  | Event e x =>
      match e in mapE X return X -> option (query * bool) with
      | Await_locations q => fun r => Some (q, succeeded r)
      | _ => fun _ => None
      end x
  end.

Definition answer_of (ev : event mapE)
  : option (awaited (Postgrest.response Row)) :=
  match ev with
  | Event e x =>
      match e in mapE X
            return X -> option (awaited (Postgrest.response Row)) with
      | Await_locations _ => fun r => Some r
      | _ => fun _ => None
      end x
  end.

Definition setters (tr : list (event mapE)) : list setter :=
  pick setter_of tr.

Definition calls (tr : list (event mapE)) : list (query * bool) :=
  pick call_of tr.

Definition answers (tr : list (event mapE))
  : list (awaited (Postgrest.response Row)) :=
  pick answer_of tr.

Definition after (st : State) (tr : list (event mapE)) : State :=
  fold_left apply_setter (setters tr) st.

(** A row the request keeps: neither coordinate is null. *)
Definition located (r : Row) : Prop :=
  gps_latitude r <> None /\ gps_longitude r <> None.

(** A coordinate is zero. *)
Definition is_zero (x : option coordinate) : Prop :=
  exists q, x = Some q /\ QArith_base.Qnum q = 0.

End ComplaintMap.

(* ================================================================== *)
(** ** NotificationGateway: the answers of the provider *)

(** What [fetch] was answered, and what [response.json()] was. *)
Definition fetch_answer_of (ev : event Gateway.gatewayE)
  : option (awaited Gateway.FetchResponse) :=
  match ev with
  | Event e x =>
      match e in Gateway.gatewayE X
            return X -> option (awaited Gateway.FetchResponse) with
      | Gateway.Fetch _ => fun r => Some r
      | _ => fun _ => None
      end x
  end.

Definition provider_error_of (ev : event Gateway.gatewayE)
  : option (awaited Gateway.jsvalue) :=
  match ev with
  | Event e x =>
      match e in Gateway.gatewayE X
            return X -> option (awaited Gateway.jsvalue) with
      | Gateway.Response_json => fun r => Some r
      | _ => fun _ => None
      end x
  end.

Definition fetch_answers (tr : list (event Gateway.gatewayE))
  : list (awaited Gateway.FetchResponse) :=
  pick fetch_answer_of tr.

Definition provider_errors (tr : list (event Gateway.gatewayE))
  : list (awaited Gateway.jsvalue) :=
  pick provider_error_of tr.

(** The value of a field of a form. *)
Fixpoint field (name : string) (form : list (string * string))
  : option string :=
  match form with
  | [] => None
  | (k, v) :: rest => if String.eqb k name then Some v else field name rest
  end.

(* ================================================================== *)
(** ** Further notions the statements use *)

(** The dialog and its form are the same in two states. *)
Definition same_dialog (st st' : State) : Prop :=
  assignDialogOpen st' = assignDialogOpen st
  /\ selectedComplaint st' = selectedComplaint st
  /\ workerName st' = workerName st
  /\ workerContact st' = workerContact st
  /\ statusNote st' = statusNote st
  /\ newStatus st' = newStatus st.

(** The filters and the page are the same in two states. *)
Definition same_browsing (st st' : State) : Prop :=
  filters st' = filters st
  /\ currentPage st' = currentPage st
  /\ complaintsPerPage st' = complaintsPerPage st.

(** The request of [fetchStats]. *)
Definition stats_query : Postgrest.query :=
  Postgrest.select "complaints" "status" None.

(** The setters of [openAssignDialog]. *)
Definition dialog_prefill (c : Complaint) : list setter :=
  [setSelectedComplaint (Some c);
   setNewStatus (Js.or_else (status c) "");
   setWorkerName (Js.or_else (assigned_to c) "");
   setWorkerContact (Js.or_else (status c) "");
   setAssignDialogOpen true].

(** What an event can do: the setters it calls and the requests it
    makes, by kind of event. *)
Definition effects_of (st : State) (ev : page_event)
           (sets : list setter) (reqs : list Postgrest.query) : Prop :=
  match ev with
  | Assignment (ClickUpdate index) =>
      exists c, nth_error (complaints st) index = Some c
                /\ update_disabled c = false
                /\ sets = dialog_prefill c /\ reqs = []
  | Assignment (ChooseNewStatus value) =>
      In value status_options /\ selectedComplaint st <> None
      /\ sets = [setNewStatus value] /\ reqs = []
  | Assignment (EditWorkerName value) =>
      sets = [setWorkerName value] /\ reqs = []
  | Assignment (EditWorkerContact value) =>
      sets = [setWorkerContact value] /\ reqs = []
  | Assignment (EditStatusNote value) =>
      sets = [setStatusNote value] /\ reqs = []
  | Assignment ClickUpdateStatus =>
      (sets = [] /\ reqs = [])
      \/ exists c, form_filled st c
                   /\ ((sets = [] /\ reqs = [update_request c st])
                       \/ (sets = []
                           /\ reqs = [update_request c st;
                                      insert_request c st])
                       \/ (sets = form_reset
                           /\ reqs = [update_request c st;
                                      insert_request c st]))
  | Assignment DismissDialog =>
      sets = [setAssignDialogOpen false] /\ reqs = []
  | ChooseIssueFilter value =>
      sets = [setFilters {| filter_status := filter_status (filters st);
                            filter_issueType := all_or value |};
              setCurrentPage 1]
      /\ reqs = []
  | ChooseStatusFilter value =>
      sets = [setFilters {| filter_status := all_or value;
                            filter_issueType := filter_issueType (filters st) |};
              setCurrentPage 1]
      /\ reqs = []
  | ClickPrevious =>
      currentPage st <> 1
      /\ sets = [setCurrentPage (currentPage st - 1)] /\ reqs = []
  | ClickNext =>
      currentPage st * complaintsPerPage st < totalComplaints st
      /\ sets = [setCurrentPage (currentPage st + 1)] /\ reqs = []
  | FetchComplaints =>
      reqs = [complaints_query st (currentPage st)]
      /\ ((exists l n, sets = [setLoading true; setComplaints l;
                               setTotalComplaints n; setLoading false])
          \/ sets = [setLoading true; setLoading false])
  | FetchStats =>
      reqs = [stats_query]
      /\ (sets = [] \/ exists s, sets = [setStats s])
  end.

(** The page number is at least 1 and the page size is the 5 the
    component mounts with. *)
Definition paging_invariant (st : State) : Prop :=
  1 <= currentPage st /\ complaintsPerPage st = 5.

(** The row the dialog holds, when there is one, has a status other than
    Resolved (the one it had when the dialog was opened on it), and the
    target status of the form is an item of the selector or the status
    of that row. *)
Definition selection_invariant (st : State) : Prop :=
  forall c, selectedComplaint st = Some c ->
            status c <> Some "Resolved"
            /\ (In (newStatus st) status_options
                \/ newStatus st = Js.or_else (status c) "").

Section Browsing.

Variable W : Type.
Variable answer : forall X, portalE X -> W -> X * W.

(** A sequence of events, each on the state the previous one left.
    [None] when one of them is not available. *)
Fixpoint browse (script : list page_event) (st : State) (w : W)
  : option (State * W) :=
  match script with
  | [] => Some (st, w)
  | ev :: rest =>
      if available st ev then
        let '(_, w1, tr) := run answer (handle st ev) w in
        browse rest (after st tr) w1
      else None
  end.

End Browsing.

(** Twelve complaints in the database: the list is fetched, then Next
    twice and Previous once. *)
Definition twelve : list Complaint := repeat Scenario.pothole 12.

Definition paged : State :=
  match browse (Scenario.database twelve)
               [FetchComplaints; ClickNext; ClickNext; ClickPrevious]
               initial [] with
  | Some (st, _) => st
  | None => initial
  end.

(** The list is fetched, the dialog is opened on the pothole and filled
    in to send it back to Assigned. *)
Definition about_to_assign : State :=
  match browse (Scenario.database [Scenario.pothole])
               [FetchComplaints;
                Assignment (ClickUpdate 0);
                Assignment (ChooseNewStatus "Assigned");
                Assignment (EditWorkerName "Asha");
                Assignment (EditWorkerContact "9800000000")]
               initial [] with
  | Some (st, _) => st
  | None => initial
  end.

(** The row of the same complaint when its status was [s]. *)
Definition earlier (c : Complaint) (s : string) : Complaint :=
  {| id := id c; complaint_code := complaint_code c;
     issue_type := issue_type c; description := description c;
     city := city c; state := state c; status := Some s;
     assigned_to := assigned_to c; created_at := created_at c |}.

(** The page can reach a state in which it lists [c], the dialog holds
    [held], a row of the same complaint, the submit button is there,
    and pressing it asks the database, first of all, to set the status
    of that complaint to [target]. *)
Definition accepts (held c : Complaint) (target : string) : Prop :=
  exists st,
    reachable st
    /\ complaints st = [c]
    /\ selectedComplaint st = Some held
    /\ id held = id c
    /\ available st (Assignment ClickUpdateStatus) = true
    /\ forall (W : Type) (answer : forall X, portalE X -> W -> X * W) (w : W),
        exists ok rest,
          calls (trace answer (handle st (Assignment ClickUpdateStatus)) w)
          = (Postgrest.eq "id" (id c)
               (Postgrest.update "complaints"
                  {| Postgrest.set_status := target;
                     Postgrest.set_assigned_to := workerName st |}), ok)
              :: rest.

(** The list is fetched, the dialog is opened on the first row and
    filled in, with the target chosen in the selector when it is one of
    its items, and then the list is fetched again. *)
Definition refetch_under_dialog (target : string) : list page_event :=
  ([FetchComplaints; Assignment (ClickUpdate 0)]
   ++ (if mem target status_options
       then [Assignment (ChooseNewStatus target)] else [])
   ++ [Assignment (EditWorkerName "Asha");
       Assignment (EditWorkerContact "9800000000");
       FetchComplaints])%list.

(** The pothole once it is assigned to Asha. *)
Definition assigned_pothole : Complaint :=
  RecordStore.patched {| Postgrest.set_status := "Assigned";
                         Postgrest.set_assigned_to := "Asha" |}
                      Scenario.pothole.

(** The error the handler throws on a provider response that is not ok,
    given the parsed body of that response. *)
Definition provider_failure (errorData : Gateway.jsvalue) : thrown :=
  match Gateway.member errorData "message" with
  | Throw x => x
  | Normal message =>
      if Gateway.truthy message then
        match Gateway.to_string message with
        | Throw x => x
        | Normal detail => ErrorObject ("Twilio Error: " ++ detail)
        end
      else ErrorObject "Twilio Error: Failed to send SMS."
  end.

(** How the answers of the provider decide the response. *)
Definition provider_decides (resp : completion Gateway.Response)
           (tr : list (event Gateway.gatewayE)) : Prop :=
  match fetch_answers tr with
  | [] => provider_errors tr = []
  | [Rejected reason] =>
      resp = Normal (Gateway.error_response reason)
      /\ provider_errors tr = []
  | [Fulfilled response] =>
      if Gateway.ok response then
        resp = Normal Gateway.success_response /\ provider_errors tr = []
      else
        match provider_errors tr with
        | [Rejected reason] => resp = Normal (Gateway.error_response reason)
        | [Fulfilled errorData] =>
            resp = Normal (Gateway.error_response (provider_failure errorData))
        | _ => False
        end
  | _ => False
  end.

(** The response has one of the two statuses and allows every origin. *)
Definition well_formed_response (r : Gateway.Response) : Prop :=
  (Gateway.status r = 200 \/ Gateway.status r = 400)
  /\ forall h, In h Gateway.corsHeaders -> In h (Gateway.response_headers r).

(** A deployment with a provider, and a provider that refuses the
    message. *)
Definition with_provider : Gateway.Env :=
  {| Gateway.TWILIO_ACCOUNT_SID := Some "AC123";
     Gateway.TWILIO_AUTH_TOKEN := Some "token";
     Gateway.TWILIO_PHONE_NUMBER := Some "+15005550006" |}.

(** A parsed body that is a value but not an object: a boolean, a
    number, a text or an array. *)
Definition not_an_object (parsed : Gateway.jsvalue) : bool :=
  match parsed with
  | Gateway.JBool _ | Gateway.JNumber _ | Gateway.JString _
  | Gateway.JArray _ => true
  | _ => false
  end.

(** A complaint filed on the equator, at longitude 78.9629. *)
Definition on_the_equator : ComplaintMap.Row :=
  {| ComplaintMap.id := "c-0";
     ComplaintMap.complaint_code := "NR-0000";
     ComplaintMap.issue_type := Some "Road Repair";
     ComplaintMap.status := Some "Registered";
     ComplaintMap.gps_latitude := Some (QArith_base.Qmake 0 1);
     ComplaintMap.gps_longitude := Some (QArith_base.Qmake 789629 10000) |}.

(** A database for the map: it holds the given rows and refuses the
    request when told to. *)
Definition map_database (held : list ComplaintMap.Row) (refuse : bool)
           (X : Type) (e : ComplaintMap.mapE X) (w : unit) : X * unit :=
  match e in ComplaintMap.mapE X return X * unit with
  | ComplaintMap.Await_locations _ =>
      (if refuse then Scenario.refused else Scenario.served held, w)
  | ComplaintMap.Console_error _ _ => (tt, w)
  | ComplaintMap.SetState _ => (tt, w)
  end.

(** ** Proof support *)

Arguments handleAssignWorker : simpl never.
Arguments Gateway.validate : simpl never.
Arguments Gateway.sms_request : simpl never.
Arguments Gateway.configured : simpl never.
Arguments Gateway.member : simpl never.

(** Names the answer of the environment to the next effect of the run
    in the goal, and the environment it leaves. *)
Ltac answered answer :=
  match goal with
  | |- context [answer ?X ?e ?w] =>
      match type of e with
      | _ unit =>
          let w' := fresh "w" in
          destruct (answer X e w) as [[] w']; cbn
      | _ =>
          let a := fresh "a" in
          let w' := fresh "w" in
          destruct (answer X e w) as [a w']; cbn
      end
  end.

(* ================================================================== *)
(** * Properties *)

(** ** StatsAggregator *)

Lemma eqb_ignore_case_lower (s t : string) :
  eqb_ignore_case s t = String.eqb (Js.toLowerCase s) (Js.toLowerCase t).
Proof.
  revert t; induction s as [|a s IH]; intros [|b t]; simpl; auto.
  now rewrite IH.
Qed.

Lemma is_lit_lowered (r : StatusRow) (lit : string) :
  is_lit (lowered r) (Js.toLowerCase lit) = has_status lit r.
Proof.
  unfold lowered, has_status.
  destruct (row_status r) as [v|]; simpl; auto.
  now rewrite eqb_ignore_case_lower.
Qed.

(** The known cases exclude one another, so the else-if chain counts a
    row under the first and only case it matches. *)
Lemma has_status_exclusive (r : StatusRow) (a b : string) :
  Js.toLowerCase a <> Js.toLowerCase b ->
  has_status a r = true -> has_status b r = false.
Proof.
  unfold has_status. destruct (row_status r) as [v|]; [|discriminate].
  rewrite !eqb_ignore_case_lower. intros Hab Ha.
  apply String.eqb_eq in Ha. apply String.eqb_neq. congruence.
Qed.

Lemma reducer_counts (acc : Stats) (r : StatusRow) :
  pending (reducer acc r) = pending acc + bump (has_status "Registered" r)
  /\ inProgress (reducer acc r)
     = inProgress acc
       + bump (has_status "Assigned" r || has_status "In-Progress" r)
  /\ resolved (reducer acc r) = resolved acc + bump (has_status "Resolved" r)
  /\ total (reducer acc r) = total acc + 1.
Proof.
  unfold reducer.
  change "registered" with (Js.toLowerCase "Registered").
  change "assigned" with (Js.toLowerCase "Assigned").
  change "in-progress" with (Js.toLowerCase "In-Progress").
  change "resolved" with (Js.toLowerCase "Resolved").
  rewrite !is_lit_lowered.
  destruct (has_status "Registered" r) eqn:Hreg.
  - rewrite (has_status_exclusive r "Registered" "Assigned"),
            (has_status_exclusive r "Registered" "In-Progress"),
            (has_status_exclusive r "Registered" "Resolved");
      simpl; auto; try discriminate.
    repeat split; lia.
  - destruct (has_status "Assigned" r) eqn:Hasg.
    + rewrite (has_status_exclusive r "Assigned" "Resolved");
        simpl; auto; try discriminate.
      repeat split; lia.
    + destruct (has_status "In-Progress" r) eqn:Hinp.
      * rewrite (has_status_exclusive r "In-Progress" "Resolved");
          simpl; auto; try discriminate.
        repeat split; lia.
      * destruct (has_status "Resolved" r); simpl; repeat split; lia.
Qed.

Lemma count_rows_cons (f : StatusRow -> bool) r rows :
  count_rows f (r :: rows) = bump (f r) + count_rows f rows.
Proof.
  unfold count_rows; simpl. destruct (f r); simpl bump; simpl List.length; lia.
Qed.

Lemma fold_reducer_counts (rows : list StatusRow) (acc : Stats) :
  let s := fold_left reducer rows acc in
  pending s = pending acc + count_rows (has_status "Registered") rows
  /\ inProgress s
     = inProgress acc
       + count_rows (fun r => has_status "Assigned" r
                              || has_status "In-Progress" r) rows
  /\ resolved s = resolved acc + count_rows (has_status "Resolved") rows
  /\ total s = total acc + Z.of_nat (List.length rows).
Proof.
  revert acc; induction rows as [|r rows IH]; intros acc.
  - unfold count_rows; simpl; repeat split; lia.
  - cbn [fold_left]. cbv zeta in IH |- *.
    destruct (IH (reducer acc r)) as (Hp & Hi & Hr & Ht).
    destruct (reducer_counts acc r) as (Hp1 & Hi1 & Hr1 & Ht1).
    rewrite !count_rows_cons.
    rewrite Hp, Hi, Hr, Ht, Hp1, Hi1, Hr1, Ht1.
    cbn [List.length]. repeat split; lia.
Qed.

(** C1.  [fetchStats] reduces the status column to four counters,
    comparing case-insensitively: [pending] is the number of rows whose
    status equals Registered, [inProgress] the number whose status
    equals Assigned or In-Progress, [resolved] the number whose status
    equals Resolved, and [total] the number of all rows; a row of
    unknown status moves [total] alone.  On the statuses Registered,
    Registered, Assigned, Resolved, Unknown the counters are 2, 1, 1
    and 5.  Whatever the environment, when the request succeeds the
    component stores the reduction of the rows it was answered. *)
Theorem stats_aggregator_counts :
  (forall rows : list StatusRow,
      let s := reduce_stats (Some rows) in
      pending s = count_rows (has_status "Registered") rows
      /\ inProgress s
         = count_rows (fun r => has_status "Assigned" r
                                || has_status "In-Progress" r) rows
      /\ resolved s = count_rows (has_status "Resolved") rows
      /\ total s = Z.of_nat (List.length rows))
  /\ (forall (acc : Stats) (r : StatusRow),
         unknown_status r = true ->
         reducer acc r
         = {| pending := pending acc; inProgress := inProgress acc;
              resolved := resolved acc; total := total acc + 1 |})
  /\ reduce_stats
       (Some (statuses ["Registered"; "Registered"; "Assigned";
                        "Resolved"; "Unknown"]))
     = {| pending := 2; inProgress := 1; resolved := 1; total := 5 |}
  /\ (forall (W : Type) (answer : forall X, portalE X -> W -> X * W) (w : W),
         let tr := trace answer fetchStats w in
         forall r,
           In (Fulfilled r) (statuses_answers tr) ->
           Postgrest.error r = None ->
           setters tr = [setStats (reduce_stats (Postgrest.data r))]).
Proof.
  split; [|split; [|split]].
  - intros rows s. subst s. unfold reduce_stats.
    destruct (fold_reducer_counts rows stats0) as (Hp & Hi & Hr & Ht).
    cbv zeta in *. simpl in *. repeat split; lia.
  - intros acc r Hu. unfold unknown_status in Hu.
    apply negb_true_iff in Hu.
    apply orb_false_iff in Hu as [Hu Hres].
    apply orb_false_iff in Hu as [Hu Hinp].
    apply orb_false_iff in Hu as [Hreg Hasg].
    destruct (reducer_counts acc r) as (Hp & Hi & Hr & Ht).
    rewrite Hreg in Hp. rewrite Hasg, Hinp in Hi. rewrite Hres in Hr.
    destruct (reducer acc r) as [p i r0 t]. cbn in *.
    f_equal; lia.
  - reflexivity.
  - intros W answer w tr r Hin Herr. subst tr.
    unfold trace, fetchStats in *. cbn in *.
    destruct (answer _ (Await_statuses (Postgrest.select "complaints" "status" None)) w)
      as [a w1] eqn:Ha.
    destruct a as [x|reason]; cbn in *.
    + destruct (Postgrest.error x) as [e|] eqn:He; cbn in *.
      * destruct (answer _ (Console_error "Error fetching stats:" e) w1)
          as [[] w2]; cbn in *.
        destruct Hin as [Hin|[]]. congruence.
      * destruct (answer _ (SetState (setStats (reduce_stats (Postgrest.data x)))) w1)
          as [[] w2]; cbn in *.
        destruct Hin as [Hin|[]]. congruence.
    + destruct (answer _ (Console_error "Error fetching stats:" reason) w1)
        as [[] w2]; cbn in *.
      destruct Hin as [Hin|[]]. discriminate.
Qed.

(** ** Stepping through a run *)

Lemma falsy_iff (s : string) : Js.falsy s = true <-> s = "".
Proof. destruct s; simpl; split; congruence. Qed.

Lemma falsy_false_iff (s : string) : Js.falsy s = false <-> s <> "".
Proof. destruct s; simpl; split; congruence. Qed.

Lemma truthy_iff (s : string) : Js.truthy s = true <-> s <> "".
Proof. unfold Js.truthy. rewrite negb_true_iff. apply falsy_false_iff. Qed.

(** ** AssignmentWorkflow *)

(** A submitted form ends in one of three ways, told apart by which of
    the two writes succeeded. *)
Lemma assign_outcomes (W : Type) (answer : forall X, portalE X -> W -> X * W)
      (w : W) (st : State) (c : Complaint) :
  form_filled st c ->
  let tr := trace answer (handleAssignWorker st) w in
  let u := update_request c st in
  let i := insert_request c st in
  (calls tr = [(u, false)]
   /\ toasts tr = [destructive "Error assigning worker"]
   /\ setters tr = []
   /\ forall db, RecordStore.replay db tr = db)
  \/ (calls tr = [(u, true); (i, false)]
      /\ toasts tr = [destructive "Error assigning worker"]
      /\ setters tr = []
      /\ forall db, RecordStore.replay db tr = RecordStore.apply_write u db)
  \/ (calls tr = [(u, true); (i, true)]
      /\ toasts tr = [success_toast st c]
      /\ setters tr = form_reset
      /\ forall db,
          RecordStore.replay db tr
          = RecordStore.apply_write i (RecordStore.apply_write u db)).
Proof.
  intros (Hsel & Hn & Hc & Hs).
  apply falsy_false_iff in Hn, Hc, Hs.
  unfold trace, handleAssignWorker. rewrite Hsel, Hn, Hc, Hs. cbn.
  answered answer. destruct a as [x|reason]; cbn.
  - destruct (Postgrest.error x) as [e|] eqn:He; cbn.
    + do 2 answered answer. left.
      unfold calls, toasts, setters, RecordStore.replay; cbn. rewrite He.
      repeat split.
    + answered answer. destruct a as [y|reason]; cbn.
      * destruct (Postgrest.error y) as [e|] eqn:Hy; cbn.
        -- do 2 answered answer. right; left.
           unfold calls, toasts, setters, RecordStore.replay; cbn.
           rewrite He, Hy. repeat split.
        -- do 7 answered answer. right; right.
           unfold calls, toasts, setters, RecordStore.replay; cbn.
           rewrite He, Hy. repeat split.
      * do 2 answered answer. right; left.
        unfold calls, toasts, setters, RecordStore.replay; cbn.
        rewrite He. repeat split.
  - do 2 answered answer. left.
    unfold calls, toasts, setters, RecordStore.replay; cbn. repeat split.
Qed.

(** What the acknowledged update does to the tables: the rows with the
    id of the selected complaint take the new status and the worker
    name, and no audit row is added. *)
Lemma apply_update_request (c : Complaint) (st : State) (db : RecordStore.Store) :
  let db' := RecordStore.apply_write (update_request c st) db in
  RecordStore.complaints_table db'
  = map (fun x =>
           if String.eqb (id x) (id c)
           then RecordStore.patched
                  {| Postgrest.set_status := newStatus st;
                     Postgrest.set_assigned_to := workerName st |} x
           else x)
        (RecordStore.complaints_table db)
  /\ RecordStore.status_updates_table db'
     = RecordStore.status_updates_table db.
Proof.
  cbn. split; [|reflexivity].
  apply map_ext. intros x.
  unfold RecordStore.selected; cbn.
  now rewrite andb_true_r.
Qed.



(** C3.  When no complaint is selected, or the worker name, the worker
    contact or the target status is empty, in any combination, the
    workflow is the validation toast and nothing else: no network call
    (neither the update nor the insert) and no change of state. *)
Theorem assignment_rejects_incomplete_form
        (W : Type) (answer : forall X, portalE X -> W -> X * W) (w : W)
        (st : State) :
  selectedComplaint st = None \/ workerName st = ""
  \/ workerContact st = "" \/ newStatus st = "" ->
  handleAssignWorker st = toast (destructive "Please fill all fields")
  /\ let tr := trace answer (handleAssignWorker st) w in
     calls tr = []
     /\ toasts tr = [destructive "Please fill all fields"]
     /\ setters tr = [].
Proof.
  intros H.
  assert (Hrej : handleAssignWorker st
                 = toast (destructive "Please fill all fields")).
  { unfold handleAssignWorker.
    destruct (selectedComplaint st) as [c|]; [|reflexivity].
    destruct H as [H|[H|[H|H]]]; [discriminate| | |];
      rewrite H; cbn; rewrite ?orb_true_r; reflexivity. }
  split; [exact Hrej|].
  rewrite Hrej. unfold trace; cbn.
  answered answer. repeat split.
Qed.

(** ** QueryBuilder and ListController *)

(** A fetch of the list makes one request, and ends in one of two ways. *)
Lemma fetch_outcomes (W : Type) (answer : forall X, portalE X -> W -> X * W)
      (w : W) (st : State) (page : Z) :
  let tr := trace answer (fetchComplaints st page) w in
  let q := complaints_query st page in
  (exists r,
      complaints_answers tr = [Fulfilled r]
      /\ Postgrest.error r = None
      /\ calls tr = [(q, true)]
      /\ toasts tr = []
      /\ setters tr = [setLoading true; setComplaints (data_or_empty r);
                       setTotalComplaints (count_or_zero r);
                       setLoading false])
  \/ (calls tr = [(q, false)]
      /\ (forall r, In (Fulfilled r) (complaints_answers tr) ->
                    Postgrest.error r <> None)
      /\ toasts tr = [destructive "Error fetching complaints"]
      /\ setters tr = [setLoading true; setLoading false]).
Proof.
  unfold trace, fetchComplaints. cbn.
  do 2 answered answer. destruct a as [r|reason]; cbn.
  - destruct (Postgrest.error r) as [e|] eqn:He; cbn.
    + do 3 answered answer. right.
      unfold calls, toasts, setters, complaints_answers; cbn. rewrite He.
      repeat split. intros r' [H|[]]. congruence.
    + do 3 answered answer. left. exists r.
      unfold calls, toasts, setters, complaints_answers; cbn. rewrite He.
      repeat split.
  - do 3 answered answer. right.
    unfold calls, toasts, setters, complaints_answers; cbn.
    repeat split. intros r' [H|[]]. discriminate.
Qed.

Lemma in_equality_predicate (col v column value : string) :
  In (col, v) (equality_predicate column value)
  <-> col = column /\ v = value /\ value <> "".
Proof.
  unfold equality_predicate.
  destruct (Js.truthy value) eqn:Hv.
  - apply truthy_iff in Hv. cbn. split.
    + intros [H|[]]. inversion H; subst. auto.
    + intros (-> & -> & _). left. reflexivity.
  - apply not_true_iff_false in Hv. rewrite truthy_iff in Hv. cbn.
    split; [intros [] | intros (_ & _ & H); exact (Hv H)].
Qed.

(** The parts of the request, as the builder calls leave them. *)
Lemma complaints_query_shape (st : State) (page : Z) :
  let q := complaints_query st page in
  Postgrest.table q = "complaints"
  /\ Postgrest.op q = Postgrest.Select "*" (Some "exact")
  /\ Postgrest.eqs q
     = (equality_predicate "status" (filter_status (filters st))
        ++ equality_predicate "issue_type" (filter_issueType (filters st)))%list
  /\ Postgrest.rows q
     = Some ((page - 1) * complaintsPerPage st,
             (page - 1) * complaintsPerPage st + complaintsPerPage st - 1)
  /\ Postgrest.ordering q = [("created_at", false)].
Proof.
  unfold complaints_query, equality_predicate.
  destruct (Js.truthy (filter_status (filters st)));
    destruct (Js.truthy (filter_issueType (filters st)));
    repeat split.
Qed.

(** C4.  The request built from the filters and the page asks for all
    columns of [complaints] with an exact count, carries an equality
    predicate on [status] exactly when the status filter is not empty
    and one on [issue_type] exactly when the issue filter is not empty
    (and no other predicate), is restricted to the rows from
    [(page-1)*pageSize] to [page*pageSize - 1], both included, and is
    ordered by [created_at] descending.  It is the only request of a
    fetch, and the rows and the count of a successful answer are stored
    as they come: nothing is filtered or sorted in the component. *)
Theorem query_builder_request (st : State) (page : Z) :
  let q := complaints_query st page in
  Postgrest.table q = "complaints"
  /\ Postgrest.op q = Postgrest.Select "*" (Some "exact")
  /\ (forall v, In ("status", v) (Postgrest.eqs q)
                <-> v = filter_status (filters st) /\ v <> "")
  /\ (forall v, In ("issue_type", v) (Postgrest.eqs q)
                <-> v = filter_issueType (filters st) /\ v <> "")
  /\ (forall column v, In (column, v) (Postgrest.eqs q) ->
                       column = "status" \/ column = "issue_type")
  /\ Postgrest.rows q
     = Some ((page - 1) * complaintsPerPage st,
             page * complaintsPerPage st - 1)
  /\ Postgrest.ordering q = [("created_at", false)]
  /\ forall (W : Type) (answer : forall X, portalE X -> W -> X * W) (w : W),
      let tr := trace answer (fetchComplaints st page) w in
      requests tr = [q]
      /\ forall r,
          In (Fulfilled r) (complaints_answers tr) ->
          Postgrest.error r = None ->
          setters tr = [setLoading true; setComplaints (data_or_empty r);
                        setTotalComplaints (count_or_zero r);
                        setLoading false].
Proof.
  intros q.
  pose proof (complaints_query_shape st page)
    as (Ht & Ho & He & Hr & Hord). fold q in Ht, Ho, He, Hr, Hord.
  split; [exact Ht|]. split; [exact Ho|].
  split; [|split; [|split; [|split; [|split]]]].
  - intros v. rewrite He, in_app_iff, !in_equality_predicate.
    split.
    + intros [(_ & Hv & Hne) | (Hcol & _)]; [|discriminate].
      subst v. split; [reflexivity | exact Hne].
    + intros (Hv & Hne). left. subst v. repeat split. exact Hne.
  - intros v. rewrite He, in_app_iff, !in_equality_predicate.
    split.
    + intros [(Hcol & _) | (_ & Hv & Hne)]; [discriminate|].
      subst v. split; [reflexivity | exact Hne].
    + intros (Hv & Hne). right. subst v. repeat split. exact Hne.
  - intros column v. rewrite He, in_app_iff, !in_equality_predicate.
    intros [(Hcol & _) | (Hcol & _)]; auto.
  - rewrite Hr. do 2 f_equal. lia.
  - exact Hord.
  - intros W answer w tr.
    destruct (fetch_outcomes answer w st page)
      as [(r & Ha & He' & Hc & Htoast & Hs) | (Hc & Ha & Htoast & Hs)];
      fold tr q in Ha, Hc, Htoast, Hs; unfold requests; rewrite Hc; cbn.
    + split; [reflexivity|]. intros r' Hin _. rewrite Ha in Hin.
      destruct Hin as [Hin|[]]. inversion Hin; subst. exact Hs.
    + split; [reflexivity|]. intros r' Hin Herr.
      exfalso. exact (Ha r' Hin Herr).
Qed.

(** C8.  The Previous control is disabled exactly when the current page
    is 1, and the Next control exactly when
    [currentPage * pageSize >= totalCount]. *)
Theorem pagination_controls (st : State) :
  (previous_disabled st = true <-> currentPage st = 1)
  /\ (next_disabled st = true
      <-> currentPage st * complaintsPerPage st >= totalComplaints st).
Proof.
  unfold previous_disabled, next_disabled. split.
  - apply Z.eqb_eq.
  - rewrite Z.geb_le. lia.
Qed.

(** C9.  When the fetch of the list fails (the answer carries an error,
    or the promise is rejected), the only setters that ran are the two
    on the loading flag: the list and the total count held before are
    still there, the loading flag is off, and one error toast was
    shown. *)
Theorem fetch_failure_keeps_list
        (W : Type) (answer : forall X, portalE X -> W -> X * W) (w : W)
        (st : State) (page : Z) :
  let tr := trace answer (fetchComplaints st page) w in
  In (complaints_query st page, false) (calls tr) ->
  complaints (after st tr) = complaints st
  /\ totalComplaints (after st tr) = totalComplaints st
  /\ loading (after st tr) = false
  /\ setters tr = [setLoading true; setLoading false]
  /\ toasts tr = [destructive "Error fetching complaints"].
Proof.
  intros tr Hfail.
  destruct (fetch_outcomes answer w st page)
    as [(r & Ha & He & Hc & Ht & Hs) | (Hc & Ha & Ht & Hs)];
    fold tr in Ha, Hc, Ht, Hs.
  - rewrite Hc in Hfail. destruct Hfail as [H|[]]. inversion H.
  - unfold after. rewrite Hs, Ht. destruct st; cbn. repeat split.
Qed.

Lemma or_else_empty (s : option string) :
  Js.or_else s "" = match s with Some v => v | None => "" end.
Proof. destruct s as [[|a v]|]; reflexivity. Qed.

(** C10.  Opening the dialog on a complaint puts the status of the
    complaint (the empty string when it is null) in the worker-contact
    field, so the field depends on nothing else in the row; the
    worker-name field takes the assigned worker and the status field the
    current status, the complaint is selected and the dialog is open.
    No network call is made. *)
Theorem open_dialog_prefills_contact_with_status
        (W : Type) (answer : forall X, portalE X -> W -> X * W) (w : W)
        (st : State) (complaint : Complaint) :
  let tr := trace answer (openAssignDialog complaint) w in
  let st' := after st tr in
  workerContact st'
  = match status complaint with Some s => s | None => "" end
  /\ workerName st'
     = match assigned_to complaint with Some s => s | None => "" end
  /\ newStatus st'
     = match status complaint with Some s => s | None => "" end
  /\ selectedComplaint st' = Some complaint
  /\ assignDialogOpen st' = true
  /\ calls tr = [].
Proof.
  unfold trace, openAssignDialog; cbn.
  do 5 answered answer.
  unfold after, setters, calls; destruct st; cbn.
  rewrite !or_else_empty. repeat split.
Qed.

(** ** NotificationGateway *)

Lemma search_after_start (s : string) :
  Regex.search Gateway.phone_pattern false s = false.
Proof. induction s as [|c s IH]; cbn; auto. Qed.

Lemma phone_pattern_spec (s : string) :
  Regex.test Gateway.phone_pattern s = true <-> plus91_ten_digits s.
Proof.
  unfold Regex.test. split.
  - intros H.
    assert (Hm : Regex.m Gateway.phone_pattern (true, s) (fun _ => true) = true).
    { destruct s as [|c s]; cbn in H |- *.
      - discriminate.
      - rewrite search_after_start, orb_false_r in H. exact H. }
    clear H. cbn in Hm.
    do 3 (destruct s as [|? s]; [discriminate|];
          apply andb_prop in Hm as [?%Ascii.eqb_eq Hm]; subst).
    exists s.
    do 10 (destruct s as [|? s]; [discriminate|];
           apply andb_prop in Hm as [? Hm]).
    destruct s; [|discriminate].
    repeat split. cbn.
    repeat match goal with H : Js.is_digit _ = true |- _ => rewrite H; clear H end.
    reflexivity.
  - intros (ds & -> & Hlen & Hd).
    do 10 (destruct ds as [|? ds]; [discriminate|]).
    destruct ds; [|discriminate].
    cbn in Hd.
    repeat (apply andb_prop in Hd as [? Hd]).
    cbn.
    repeat match goal with H : Js.is_digit _ = true |- _ => rewrite H; clear H end.
    reflexivity.
Qed.

Lemma serve_outcomes (W : Type)
      (answer : forall X, Gateway.gatewayE X -> W -> X * W) (w : W)
      (env : Gateway.Env) (req_method : string) :
  req_method <> "OPTIONS" ->
  served_as env (result answer (Gateway.serve env req_method) w)
            (trace answer (Gateway.serve env req_method) w).
Proof.
  intros Hm. apply String.eqb_neq in Hm.
  unfold served_as, result, trace, Gateway.serve. rewrite Hm. cbn.
  answered answer. destruct a as [parsed|reason]; cbn.
  - destruct (Gateway.validate parsed) as [c|x] eqn:Hv; cbn.
    + unfold Gateway.send.
      destruct (Gateway.configured env) eqn:Hcfg; cbn.
      * destruct (Gateway.to_string (Gateway.username c)) as [u|x] eqn:Hu; cbn;
          [destruct (Gateway.to_string (Gateway.password c)) as [p|x] eqn:Hp;
           cbn;
           [destruct (Gateway.to_string (Gateway.phone c)) as [to|x] eqn:Ht;
            cbn|]|];
          try solve [answered answer; rewrite ?Hv, ?Hcfg, ?Hu, ?Hp, ?Ht;
                     repeat split].
        answered answer. destruct a as [response|reason]; cbn.
        -- destruct (Gateway.ok response) eqn:Hok; cbn.
           ++ unfold Gateway.deliveries; cbn.
              rewrite ?Hv, ?Hcfg, ?Hu, ?Hp, ?Ht, ?Hok.
              repeat split. left. repeat split.
           ++ answered answer. destruct a as [errorData|reason]; cbn.
              ** destruct (Gateway.member errorData "message") as [m|x]; cbn;
                   [destruct (if Gateway.truthy m then Gateway.to_string m
                              else Normal "Failed to send SMS.");
                    cbn|];
                   answered answer; unfold Gateway.deliveries; cbn;
                   rewrite ?Hv, ?Hcfg, ?Hu, ?Hp, ?Ht, ?Hok;
                   repeat split; right; split; eauto.
              ** answered answer. unfold Gateway.deliveries; cbn.
                 rewrite ?Hv, ?Hcfg, ?Hu, ?Hp, ?Ht, ?Hok.
                 repeat split. right; split; eauto.
        -- answered answer. rewrite ?Hv, ?Hcfg, ?Hu, ?Hp, ?Ht.
           repeat split. right; split; eauto.
      * unfold Gateway.log_sms, Gateway.console_log, Gateway.after_text. cbn.
        answered answer.
        destruct (Gateway.to_string (Gateway.phone c)) as [to|x] eqn:Ht; cbn;
          [answered answer; answered answer;
           destruct (Gateway.to_string (Gateway.username c)) as [u|x] eqn:Hu;
           cbn;
           [answered answer;
            destruct (Gateway.to_string (Gateway.password c)) as [p|x] eqn:Hp;
            cbn; [answered answer|]|]|];
          answered answer; rewrite ?Hv, ?Hcfg, ?Hu, ?Hp, ?Ht; repeat split.
    + answered answer. rewrite ?Hv. repeat split.
  - answered answer. repeat split.
Qed.

(** The body of a request other than a preflight is read, once, before
    anything else is done. *)
Lemma body_is_read (W : Type)
      (answer : forall X, Gateway.gatewayE X -> W -> X * W) (w : W)
      (env : Gateway.Env) (req_method : string) :
  req_method <> "OPTIONS" ->
  exists rest,
    trace answer (Gateway.serve env req_method) w
    = Event Gateway.Req_json (fst (answer _ Gateway.Req_json w)) :: rest
    /\ Gateway.parsed_bodies rest = [].
Proof.
  intros Hm. pose proof (serve_outcomes answer w env Hm) as Hout.
  revert Hout. apply String.eqb_neq in Hm.
  unfold served_as, trace, result, Gateway.serve. rewrite Hm. cbn.
  destruct (answer _ Gateway.Req_json w) as [a w1]. cbn.
  destruct (run answer _ w1) as [[r w2] rest]. cbn.
  unfold Gateway.parsed_bodies. cbn. intros Hout.
  exists rest. split; [reflexivity|].
  destruct (pick Gateway.parsed_of rest); [reflexivity|].
  destruct a; destruct Hout.
Qed.

Lemma supplied_not_nullish (parsed : Gateway.jsvalue) (key : string) :
  supplied parsed key -> Gateway.nullish parsed = false.
Proof. unfold supplied. destruct parsed; cbn; congruence. Qed.

Lemma validate_accepts (parsed : Gateway.jsvalue) :
  (exists c, Gateway.validate parsed = Normal c)
  <-> all_supplied parsed /\ phone_ok parsed.
Proof.
  unfold all_supplied, phone_ok, has_text, supplied, Gateway.validate.
  destruct (Gateway.nullish parsed) eqn:Hn.
  - split.
    + intros [c H]; discriminate.
    + intros [(H & _) _]. exfalso.
      destruct parsed; cbn in Hn, H; discriminate.
  - destruct (Gateway.truthy (Gateway.property parsed "phone"));
      destruct (Gateway.truthy (Gateway.property parsed "username"));
      destruct (Gateway.truthy (Gateway.property parsed "password"));
      cbn;
      try (split; [intros [c H]; discriminate | intros [(?&?&?) _]; discriminate]).
    destruct (Gateway.to_string (Gateway.property parsed "phone"))
      as [text|x].
    + destruct (Regex.test Gateway.phone_pattern text) eqn:Ht; cbn.
      * apply phone_pattern_spec in Ht. split; eauto 6.
      * split; [intros [c H]; discriminate|].
        intros [_ (text' & [= <-] & H)].
        apply phone_pattern_spec in H. congruence.
    + split; [intros [c H]; discriminate|].
      intros [_ (text & H & _)]. discriminate.
Qed.

Lemma validate_missing (parsed : Gateway.jsvalue) :
  Gateway.nullish parsed = false -> ~ all_supplied parsed ->
  Gateway.validate parsed = Throw (ErrorObject missing_message).
Proof.
  unfold all_supplied, supplied, Gateway.validate. intros -> H.
  destruct (Gateway.truthy (Gateway.property parsed "phone"));
    destruct (Gateway.truthy (Gateway.property parsed "username"));
    destruct (Gateway.truthy (Gateway.property parsed "password"));
    cbn; try reflexivity.
  exfalso; apply H; repeat split.
Qed.

Lemma validate_format (parsed : Gateway.jsvalue) (text : string) :
  all_supplied parsed ->
  has_text (Gateway.property parsed "phone") text ->
  ~ plus91_ten_digits text ->
  Gateway.validate parsed = Throw (ErrorObject format_message).
Proof.
  rewrite <- phone_pattern_spec.
  intros (Hp & Hu & Hw) Ht H.
  unfold Gateway.validate.
  rewrite (supplied_not_nullish Hp).
  unfold supplied in Hp, Hu, Hw. rewrite Hp, Hu, Hw. cbn.
  unfold has_text in Ht. rewrite Ht.
  destruct (Regex.test Gateway.phone_pattern text);
    [exfalso; auto | reflexivity].
Qed.

Lemma validate_unconvertible (parsed : Gateway.jsvalue) (x : thrown) :
  all_supplied parsed ->
  Gateway.to_string (Gateway.property parsed "phone") = Throw x ->
  Gateway.validate parsed = Throw x.
Proof.
  intros (Hp & Hu & Hw) Ht.
  unfold Gateway.validate.
  rewrite (supplied_not_nullish Hp).
  unfold supplied in Hp, Hu, Hw. rewrite Hp, Hu, Hw. cbn.
  rewrite Ht. reflexivity.
Qed.

(** What validation leaves in the three fields. *)
Lemma validate_fields (parsed : Gateway.jsvalue) (c : Gateway.Credentials) :
  Gateway.validate parsed = Normal c ->
  c = {| Gateway.phone := Gateway.property parsed "phone";
         Gateway.username := Gateway.property parsed "username";
         Gateway.password := Gateway.property parsed "password" |}
  /\ exists text, has_text (Gateway.phone c) text /\ plus91_ten_digits text.
Proof.
  intros Hv.
  assert (Hok : phone_ok parsed).
  { apply validate_accepts. eauto. }
  revert Hv. unfold Gateway.validate.
  destruct (Gateway.nullish parsed); [discriminate|].
  destruct (_ || _); [discriminate|].
  destruct (Gateway.to_string (Gateway.property parsed "phone")) as [text|x];
    [|discriminate].
  destruct (negb _); [discriminate|].
  intros [= <-]. split; [reflexivity|]. exact Hok.
Qed.

Lemma join_texts_throws (l : list (completion string)) (x : thrown) :
  Gateway.join_texts l = Throw x -> In (Throw x) l.
Proof.
  induction l as [|[first|y] r IH]; cbn; [discriminate| |].
  - destruct r as [|item r']; [discriminate|].
    destruct (Gateway.join_texts (item :: r')); [discriminate|].
    intros [= <-]. right. apply IH. reflexivity.
  - intros [= <-]. left. reflexivity.
Qed.

(** Induction on a parsed value, for what does not look into the
    members of an object. *)
Lemma jsvalue_items_ind (P : Gateway.jsvalue -> Prop) :
  P Gateway.Undefined -> P Gateway.JNull ->
  (forall b, P (Gateway.JBool b)) ->
  (forall n, P (Gateway.JNumber n)) ->
  (forall s, P (Gateway.JString s)) ->
  (forall items, Forall P items -> P (Gateway.JArray items)) ->
  (forall members, P (Gateway.JObject members)) ->
  forall v, P v.
Proof.
  intros HU HN HB Hn HS HA HO.
  fix IH 1.
  intros [| |b|n|s|items|members];
    [exact HU | exact HN | apply HB | apply Hn | apply HS | | apply HO].
  apply HA.
  refine ((fix all (l : list Gateway.jsvalue) : Forall P l :=
             match l with
             | [] => Forall_nil P
             | item :: rest => Forall_cons item (IH item) (all rest)
             end) items).
Qed.

(** The only error a conversion to text throws. *)
Lemma to_string_throws (v : Gateway.jsvalue) (x : thrown) :
  Gateway.to_string v = Throw x -> x = Gateway.not_primitive.
Proof.
  induction v as [| |[|]|n|s|items IH|members] using jsvalue_items_ind;
    cbn; try discriminate.
  - intros H. apply join_texts_throws in H. revert H.
    induction IH as [|item rest Hitem _ IHrest]; cbn; [intros []|].
    intros [H|H]; [|exact (IHrest H)].
    destruct item; try discriminate; exact (Hitem H).
  - destruct (Gateway.has_own "toString" members); [|discriminate].
    intros [= <-]. reflexivity.
Qed.

(** C5, as the code has it.  The body of the request is read once.  A
    body passes validation exactly when phone, username and password are
    all supplied (in the body and truthy) and the phone has a text that
    is "+91" followed by exactly ten digits.  A body that is not null
    and lacks one of them is answered with the "Missing required
    parameters" message, one whose phone has a text of another form with
    the "Invalid phone number format" message, and one whose phone has
    no text with the error of the conversion.  Every rejection is a 400
    response whose body has success false and the message of the error,
    sent before any call of the provider or any line of log.  A request
    that passes validation, with a username and a password that have a
    text, is sent to the provider when there is one, and gets the
    success response unless the delivery failed, and the 400 response
    when it did; without a provider it is logged and gets the success
    response.  When the username or the password has no text the request
    is answered with the 400 response of that error and nothing is
    sent. *)
Theorem gateway_validation
        (W : Type) (answer : forall X, Gateway.gatewayE X -> W -> X * W)
        (w : W) (env : Gateway.Env) (req_method : string)
        (parsed : Gateway.jsvalue) :
  req_method <> "OPTIONS" ->
  fst (answer _ Gateway.Req_json w) = Fulfilled parsed ->
  let tr := trace answer (Gateway.serve env req_method) w in
  let resp := result answer (Gateway.serve env req_method) w in
  Gateway.parsed_bodies tr = [Fulfilled parsed]
  /\ ((exists c, Gateway.validate parsed = Normal c)
      <-> all_supplied parsed /\ phone_ok parsed)
  /\ (Gateway.nullish parsed = false -> ~ all_supplied parsed ->
      Gateway.validate parsed = Throw (ErrorObject missing_message))
  /\ (forall text,
        all_supplied parsed ->
        has_text (Gateway.property parsed "phone") text ->
        ~ plus91_ten_digits text ->
        Gateway.validate parsed = Throw (ErrorObject format_message))
  /\ (forall x,
        all_supplied parsed ->
        Gateway.to_string (Gateway.property parsed "phone") = Throw x ->
        x = Gateway.not_primitive /\ Gateway.validate parsed = Throw x)
  /\ (forall x, Gateway.validate parsed = Throw x ->
        resp = Normal (Gateway.error_response x)
        /\ Gateway.status (Gateway.error_response x) = 400
        /\ Gateway.response_body (Gateway.error_response x)
           = Gateway.Json
               (Gateway.JObject
                  [("success", Gateway.JBool false);
                   ("error", Gateway.JString (Gateway.errorMessage x))])
        /\ Gateway.fetches tr = [] /\ Gateway.logged tr = [])
  /\ (forall c username password,
        Gateway.validate parsed = Normal c ->
        has_text (Gateway.username c) username ->
        has_text (Gateway.password c) password ->
        exists to,
          has_text (Gateway.phone c) to
          /\ if Gateway.configured env then
               Gateway.fetches tr = [provider_request env to username password]
               /\ Gateway.logged tr = []
               /\ ((Gateway.deliveries tr = [true]
                    /\ resp = Normal Gateway.success_response)
                   \/ (Gateway.deliveries tr = [false]
                       /\ exists x, resp = Normal (Gateway.error_response x)))
             else
               Gateway.fetches tr = []
               /\ Gateway.logged tr = Gateway.fallback_log to username password
               /\ resp = Normal Gateway.success_response)
  /\ (forall c x,
        Gateway.validate parsed = Normal c ->
        Gateway.to_string (Gateway.username c) = Throw x
        \/ ((exists username, has_text (Gateway.username c) username)
            /\ Gateway.to_string (Gateway.password c) = Throw x) ->
        x = Gateway.not_primitive
        /\ resp = Normal (Gateway.error_response x)
        /\ Gateway.fetches tr = []).
Proof.
  intros Hm Hans tr resp.
  assert (Hbody : Gateway.parsed_bodies tr = [Fulfilled parsed]).
  { destruct (body_is_read answer w env Hm) as (rest & Htr & Hrest).
    unfold tr. rewrite Htr, Hans. unfold Gateway.parsed_bodies in *.
    cbn. rewrite Hrest. reflexivity. }
  pose proof (serve_outcomes answer w env Hm) as Hout.
  fold tr resp in Hout. unfold served_as in Hout. rewrite Hbody in Hout.
  split; [exact Hbody|].
  split; [apply validate_accepts|].
  split; [apply validate_missing|].
  split; [intros text; apply validate_format|].
  split.
  { intros x Hs Hx. split; [exact (to_string_throws _ Hx)|].
    apply validate_unconvertible; assumption. }
  split.
  { intros x Hx. rewrite Hx in Hout. destruct Hout as (Hr & Hf & Hl).
    repeat split; assumption. }
  split.
  - intros c u p Hc Hu Hp.
    destruct (validate_fields parsed Hc) as (_ & to & Hto & _).
    exists to. split; [exact Hto|].
    unfold has_text in Hu, Hp, Hto. rewrite Hc in Hout.
    destruct (Gateway.configured env).
    + rewrite Hu, Hp, Hto in Hout. destruct Hout as (Hl & Hf & Hd).
      split; [exact Hf|]. split; [exact Hl|]. exact Hd.
    + rewrite Hu, Hp, Hto in Hout. destruct Hout as (Hf & _ & Hl & Hr).
      repeat split; assumption.
  - intros c x Hc Hx.
    destruct (validate_fields parsed Hc) as (_ & to & Hto & _).
    unfold has_text in Hto. rewrite Hc in Hout.
    assert (Hnp : x = Gateway.not_primitive).
    { destruct Hx as [Hx|[_ Hx]]; exact (to_string_throws _ Hx). }
    split; [exact Hnp|].
    destruct (Gateway.configured env).
    + destruct Hx as [Hx|[(u & Hu) Hx]].
      * rewrite Hx in Hout. destruct Hout as (_ & Hf & _ & Hr). auto.
      * unfold has_text in Hu. rewrite Hu, Hx in Hout.
        destruct Hout as (_ & Hf & _ & Hr). auto.
    + rewrite Hto in Hout. destruct Hx as [Hx|[(u & Hu) Hx]].
      * rewrite Hx in Hout. destruct Hout as (Hf & _ & _ & Hr). auto.
      * unfold has_text in Hu. rewrite Hu, Hx in Hout.
        destruct Hout as (Hf & _ & _ & Hr). auto.
Qed.

Lemma absent_not_configured (env : Gateway.Env) :
  credentials_absent env -> Gateway.configured env = false.
Proof.
  unfold credentials_absent, Gateway.configured.
  intros [H|[H|H]]; rewrite H; cbn; rewrite ?andb_false_r; reflexivity.
Qed.

(** C6, as the code has it.  When a provider variable is absent from
    the environment and the request passes validation, the handler calls
    no provider.  When the username and the password have a text, it
    writes the six lines of the message to the log, with a line that
    holds the username and a line that holds the password, and answers
    200 with success true.  When the username has no text, only the
    first three lines are written, and when the password has none only
    the first four: the request is then answered with the 400 response
    of the error of the conversion. *)
Theorem gateway_fallback_logs_and_succeeds
        (W : Type) (answer : forall X, Gateway.gatewayE X -> W -> X * W)
        (w : W) (env : Gateway.Env) (req_method : string)
        (parsed : Gateway.jsvalue) (c : Gateway.Credentials) :
  req_method <> "OPTIONS" ->
  credentials_absent env ->
  fst (answer _ Gateway.Req_json w) = Fulfilled parsed ->
  Gateway.validate parsed = Normal c ->
  let tr := trace answer (Gateway.serve env req_method) w in
  let resp := result answer (Gateway.serve env req_method) w in
  exists to,
    has_text (Gateway.phone c) to
    /\ Gateway.parsed_bodies tr = [Fulfilled parsed]
    /\ Gateway.fetches tr = []
    /\ (forall username password,
          has_text (Gateway.username c) username ->
          has_text (Gateway.password c) password ->
          Gateway.logged tr = Gateway.fallback_log to username password
          /\ In ("Your username: " ++ username) (Gateway.logged tr)
          /\ In ("Your password: " ++ password) (Gateway.logged tr)
          /\ resp = Normal Gateway.success_response
          /\ Gateway.status Gateway.success_response = 200
          /\ Gateway.response_body Gateway.success_response
             = Gateway.Json
                 (Gateway.JObject
                    [("success", Gateway.JBool true);
                     ("message",
                      Gateway.JString "Credentials sent successfully.")]))
    /\ (forall x,
          Gateway.to_string (Gateway.username c) = Throw x ->
          Gateway.logged tr
          = ["--- Twilio credentials not found. Logging SMS content instead. ---";
             "--- SMS to " ++ to ++ " ---";
             "Welcome to Nagar Rakshak!"]
          /\ resp = Normal (Gateway.error_response x)
          /\ Gateway.status (Gateway.error_response x) = 400)
    /\ (forall username x,
          has_text (Gateway.username c) username ->
          Gateway.to_string (Gateway.password c) = Throw x ->
          Gateway.logged tr
          = ["--- Twilio credentials not found. Logging SMS content instead. ---";
             "--- SMS to " ++ to ++ " ---";
             "Welcome to Nagar Rakshak!";
             "Your username: " ++ username]
          /\ resp = Normal (Gateway.error_response x)
          /\ Gateway.status (Gateway.error_response x) = 400).
Proof.
  intros Hm Habs Hans Hv tr resp.
  assert (Hbody : Gateway.parsed_bodies tr = [Fulfilled parsed]).
  { destruct (body_is_read answer w env Hm) as (rest & Htr & Hrest).
    unfold tr. rewrite Htr, Hans. unfold Gateway.parsed_bodies in *.
    cbn. rewrite Hrest. reflexivity. }
  pose proof (serve_outcomes answer w env Hm) as Hout.
  fold tr resp in Hout. unfold served_as in Hout.
  rewrite Hbody, Hv, (absent_not_configured Habs) in Hout.
  destruct (validate_fields parsed Hv) as (_ & to & Hto & _).
  exists to. split; [exact Hto|]. split; [exact Hbody|].
  unfold has_text in Hto. rewrite Hto in Hout.
  destruct Hout as (Hf & _ & Hout).
  split; [exact Hf|].
  split; [|split].
  - intros u p Hu Hp. unfold has_text in Hu, Hp. rewrite Hu, Hp in Hout.
    destruct Hout as (Hl & Hr). rewrite Hl.
    repeat split; cbn; auto 10.
  - intros x Hx. rewrite Hx in Hout. destruct Hout as (Hl & Hr).
    repeat split; assumption.
  - intros u x Hu Hx. unfold has_text in Hu. rewrite Hu, Hx in Hout.
    destruct Hout as (Hl & Hr). repeat split; assumption.
Qed.

(** ** Witnesses and counterexamples *)

(** On the five statuses of the scenario, served by a database, the
    component stores the counters 2, 1, 1 and 5. *)
Lemma stats_aggregator_counts_witness :
  setters (trace (Scenario.database Scenario.five) fetchStats [])
  = [setStats {| pending := 2; inProgress := 1; resolved := 1; total := 5 |}].
Proof.
  destruct stats_aggregator_counts as (_ & _ & _ & H).
  apply (H _ (Scenario.database Scenario.five) []
           {| Postgrest.data :=
                Some (map (fun c => {| row_status := status c |})
                          Scenario.five);
              Postgrest.error := None;
              Postgrest.count := Some 5 |}).
  - left. reflexivity.
  - reflexivity.
Defined.


(** A freshly mounted page has no complaint selected. *)
Lemma assignment_rejects_incomplete_form_witness :
  (selectedComplaint initial = None \/ workerName initial = ""
   \/ workerContact initial = "" \/ newStatus initial = "")
  /\ calls (trace (Scenario.database []) (handleAssignWorker initial) []) = [].
Proof.
  assert (H : selectedComplaint initial = None \/ workerName initial = ""
              \/ workerContact initial = "" \/ newStatus initial = "").
  { left. reflexivity. }
  split; [exact H|].
  apply (assignment_rejects_incomplete_form (Scenario.database []) [] initial H).
Defined.

(** The second page of five, served by a database that holds one
    complaint. *)
Lemma query_builder_request_witness :
  Postgrest.rows (complaints_query initial 2) = Some (5, 9)
  /\ setters (trace (Scenario.database [Scenario.pothole])
                    (fetchComplaints initial 2) [])
     = [setLoading true; setComplaints [Scenario.pothole];
        setTotalComplaints 1; setLoading false].
Proof.
  destruct (query_builder_request initial 2)
    as (_ & _ & _ & _ & _ & Hrows & _ & H).
  split; [exact Hrows|].
  destruct (H _ (Scenario.database [Scenario.pothole]) []) as (_ & Hs).
  apply (Hs {| Postgrest.data := Some [Scenario.pothole];
               Postgrest.error := None;
               Postgrest.count := Some 1 |}).
  - left. reflexivity.
  - reflexivity.
Defined.

(** A page that lists the pothole, and a fetch that is refused. *)
Lemma fetch_failure_keeps_list_witness :
  In (complaints_query Scenario.pothole_page 1, false)
     (calls (trace (Scenario.database [])
                   (fetchComplaints Scenario.pothole_page 1) [false]))
  /\ complaints
       (after Scenario.pothole_page
              (trace (Scenario.database [])
                     (fetchComplaints Scenario.pothole_page 1) [false]))
     = [Scenario.pothole]
  /\ loading
       (after Scenario.pothole_page
              (trace (Scenario.database [])
                     (fetchComplaints Scenario.pothole_page 1) [false]))
     = false.
Proof.
  assert (H : In (complaints_query Scenario.pothole_page 1, false)
                 (calls (trace (Scenario.database [])
                               (fetchComplaints Scenario.pothole_page 1)
                               [false]))).
  { left. reflexivity. }
  split; [exact H|].
  destruct (fetch_failure_keeps_list (Scenario.database []) [false]
              Scenario.pothole_page 1 H)
    as (Hc & _ & Hl & _).
  split; [exact Hc | exact Hl].
Defined.

(** A well-formed request to a deployment without provider. *)
Lemma gateway_validation_witness :
  "POST" <> "OPTIONS"
  /\ fst (Scenario.provider Scenario.welcome true Gateway.Req_json tt)
     = Fulfilled Scenario.welcome
  /\ Gateway.parsed_bodies
       (trace (Scenario.provider Scenario.welcome true)
              (Gateway.serve Scenario.no_provider "POST") tt)
     = [Fulfilled Scenario.welcome]
  /\ Gateway.validate Scenario.welcome = Normal Scenario.welcome_credentials
  /\ result (Scenario.provider Scenario.welcome true)
            (Gateway.serve Scenario.no_provider "POST") tt
     = Normal Gateway.success_response.
Proof.
  assert (H1 : "POST" <> "OPTIONS") by discriminate.
  assert (H2 : fst (Scenario.provider Scenario.welcome true
                      Gateway.Req_json tt)
               = Fulfilled Scenario.welcome) by reflexivity.
  assert (H3 : Gateway.validate Scenario.welcome
               = Normal Scenario.welcome_credentials) by reflexivity.
  destruct (gateway_validation (Scenario.provider Scenario.welcome true) tt
              Scenario.no_provider H1 H2) as (Hb & _ & _ & _ & _ & _ & H & _).
  destruct (H _ "asha" "s3cret" H3 eq_refl eq_refl) as (to & _ & _ & _ & Hr).
  split; [exact H1|]. split; [exact H2|]. split; [exact Hb|].
  split; [exact H3 | exact Hr].
Defined.

(** The same request: the log holds the username and the password. *)
Lemma gateway_fallback_logs_and_succeeds_witness :
  "POST" <> "OPTIONS"
  /\ credentials_absent Scenario.no_provider
  /\ fst (Scenario.provider Scenario.welcome true Gateway.Req_json tt)
     = Fulfilled Scenario.welcome
  /\ Gateway.validate Scenario.welcome = Normal Scenario.welcome_credentials
  /\ Gateway.fetches
       (trace (Scenario.provider Scenario.welcome true)
              (Gateway.serve Scenario.no_provider "POST") tt) = []
  /\ In "Your username: asha"
        (Gateway.logged
           (trace (Scenario.provider Scenario.welcome true)
                  (Gateway.serve Scenario.no_provider "POST") tt))
  /\ In "Your password: s3cret"
        (Gateway.logged
           (trace (Scenario.provider Scenario.welcome true)
                  (Gateway.serve Scenario.no_provider "POST") tt))
  /\ result (Scenario.provider Scenario.welcome true)
            (Gateway.serve Scenario.no_provider "POST") tt
     = Normal Gateway.success_response.
Proof.
  assert (H1 : "POST" <> "OPTIONS") by discriminate.
  assert (H2 : credentials_absent Scenario.no_provider) by (left; reflexivity).
  assert (H3 : fst (Scenario.provider Scenario.welcome true
                      Gateway.Req_json tt)
               = Fulfilled Scenario.welcome) by reflexivity.
  assert (H4 : Gateway.validate Scenario.welcome
               = Normal Scenario.welcome_credentials) by reflexivity.
  destruct (gateway_fallback_logs_and_succeeds
              (Scenario.provider Scenario.welcome true) tt H1 H2 H3 H4)
    as (to & _ & _ & Hf & H & _).
  destruct (H "asha" "s3cret" eq_refl eq_refl) as (_ & Hu & Hp & Hr & _).
  split; [exact H1|]. split; [exact H2|]. split; [exact H3|].
  split; [exact H4|]. split; [exact Hf|]. split; [exact Hu|].
  split; [exact Hp | exact Hr].
Defined.

(** C6, as stated, fails on a request whose username is an object with
    a member of its own called [toString]: the request passes
    validation and no provider variable is set, yet only the first three
    lines are logged, none with the username or the password, and the
    answer is the 400 response of the TypeError. *)
Lemma unconvertible_username_is_not_logged :
  credentials_absent Scenario.no_provider
  /\ all_supplied Scenario.unconvertible_username
  /\ phone_ok Scenario.unconvertible_username
  /\ (exists c, Gateway.validate Scenario.unconvertible_username = Normal c)
  /\ Gateway.fetches
       (trace (Scenario.provider Scenario.unconvertible_username true)
              (Gateway.serve Scenario.no_provider "POST") tt) = []
  /\ Gateway.logged
       (trace (Scenario.provider Scenario.unconvertible_username true)
              (Gateway.serve Scenario.no_provider "POST") tt)
     = ["--- Twilio credentials not found. Logging SMS content instead. ---";
        "--- SMS to +911234567890 ---";
        "Welcome to Nagar Rakshak!"]
  /\ result (Scenario.provider Scenario.unconvertible_username true)
            (Gateway.serve Scenario.no_provider "POST") tt
     = Normal (Gateway.error_response Gateway.not_primitive)
  /\ Gateway.status (Gateway.error_response Gateway.not_primitive) = 400
  /\ result (Scenario.provider Scenario.unconvertible_username true)
            (Gateway.serve Scenario.no_provider "POST") tt
     <> Normal Gateway.success_response.
Proof.
  split; [left; reflexivity|].
  split; [repeat split|].
  split; [exists "+911234567890"; split; [reflexivity|];
          exists "1234567890"; repeat split|].
  split; [eexists; reflexivity|].
  split; [reflexivity|]. split; [reflexivity|]. split; [reflexivity|].
  split; [reflexivity|]. discriminate.
Qed.

(** C5, as stated, fails on a body whose username is the empty string:
    the three fields are in the body and the phone has the form, yet the
    request is rejected as missing a parameter. *)
Lemma empty_username_is_rejected :
  present Scenario.empty_username "phone"
  /\ present Scenario.empty_username "username"
  /\ present Scenario.empty_username "password"
  /\ phone_ok Scenario.empty_username
  /\ Gateway.validate Scenario.empty_username
     = Throw (ErrorObject missing_message)
  /\ result (Scenario.provider Scenario.empty_username true)
            (Gateway.serve Scenario.no_provider "POST") tt
     = Normal (Gateway.error_response (ErrorObject missing_message)).
Proof.
  repeat split; try discriminate.
  exists "+911234567890". split; [reflexivity|].
  exists "1234567890". repeat split.
Qed.

(* ================================================================== *)
(** * Further properties *)

(** ** StatsAggregator and the badges *)

Lemma row_counted_once (r : StatusRow) :
  bump (has_status "Registered" r)
  + bump (has_status "Assigned" r || has_status "In-Progress" r)
  + bump (has_status "Resolved" r)
  + bump (unknown_status r) = 1.
Proof.
  unfold unknown_status.
  destruct (has_status "Registered" r) eqn:Hreg.
  - rewrite (has_status_exclusive r "Registered" "Assigned"),
            (has_status_exclusive r "Registered" "In-Progress"),
            (has_status_exclusive r "Registered" "Resolved");
      auto; discriminate.
  - destruct (has_status "Assigned" r) eqn:Hasg.
    + rewrite (has_status_exclusive r "Assigned" "Resolved");
        auto; discriminate.
    + destruct (has_status "In-Progress" r) eqn:Hinp.
      * rewrite (has_status_exclusive r "In-Progress" "Resolved");
          auto; discriminate.
      * destruct (has_status "Resolved" r); reflexivity.
Qed.

Lemma count_rows_nonneg (f : StatusRow -> bool) (rows : list StatusRow) :
  0 <= count_rows f rows.
Proof. unfold count_rows. lia. Qed.

Lemma counts_partition (rows : list StatusRow) :
  count_rows (has_status "Registered") rows
  + count_rows (fun r => has_status "Assigned" r
                         || has_status "In-Progress" r) rows
  + count_rows (has_status "Resolved") rows
  + count_rows unknown_status rows
  = Z.of_nat (List.length rows).
Proof.
  induction rows as [|r rows IH].
  - reflexivity.
  - rewrite !count_rows_cons. pose proof (row_counted_once r).
    cbn [List.length]. lia.
Qed.

Lemma no_unknown_iff (rows : list StatusRow) :
  count_rows unknown_status rows = 0
  <-> forallb (fun r => negb (unknown_status r)) rows = true.
Proof.
  induction rows as [|r rows IH].
  - split; reflexivity.
  - rewrite count_rows_cons. cbn [forallb].
    pose proof (count_rows_nonneg unknown_status rows).
    destruct (unknown_status r); cbn [bump negb andb].
    + split; [lia | discriminate].
    + rewrite <- IH. split; lia.
Qed.

(** X1.  The three status counters are never negative and never add up
    to more than the total: the difference is the number of rows whose
    status is null or matches no known case, so the sum equals the total
    exactly when every row has a known status. *)
Theorem stats_counters_within_total (rows : list StatusRow) :
  let s := reduce_stats (Some rows) in
  0 <= pending s /\ 0 <= inProgress s /\ 0 <= resolved s
  /\ pending s + inProgress s + resolved s
     + count_rows unknown_status rows = total s
  /\ pending s + inProgress s + resolved s <= total s
  /\ (pending s + inProgress s + resolved s = total s
      <-> forallb (fun r => negb (unknown_status r)) rows = true).
Proof.
  intros s. subst s. unfold reduce_stats.
  destruct (fold_reducer_counts rows stats0) as (Hp & Hi & Hr & Ht).
  cbv zeta in Hp, Hi, Hr, Ht. cbn [stats0 pending inProgress resolved total] in *.
  pose proof (counts_partition rows) as Hsum.
  pose proof (count_rows_nonneg (has_status "Registered") rows).
  pose proof (count_rows_nonneg (fun r => has_status "Assigned" r
                                         || has_status "In-Progress" r) rows).
  pose proof (count_rows_nonneg (has_status "Resolved") rows).
  pose proof (count_rows_nonneg unknown_status rows).
  rewrite <- no_unknown_iff.
  repeat split; lia.
Qed.

Lemma getStatusColor_row (r : StatusRow) :
  getStatusColor (row_status r)
  = if has_status "Registered" r
    then "bg-civic-saffron/20 text-civic-saffron"
    else if has_status "Assigned" r then "bg-civic-blue/20 text-civic-blue"
    else if has_status "In-Progress" r then "bg-yellow-100 text-yellow-700"
    else if has_status "Resolved" r then "bg-civic-green/20 text-civic-green"
    else "bg-muted text-muted-foreground".
Proof.
  unfold getStatusColor. fold (lowered r).
  change "registered" with (Js.toLowerCase "Registered").
  change "assigned" with (Js.toLowerCase "Assigned").
  change "in-progress" with (Js.toLowerCase "In-Progress").
  change "resolved" with (Js.toLowerCase "Resolved").
  now rewrite !is_lit_lowered.
Qed.

(** X2.  The badge and the statistics classify alike: a status gets the
    muted default badge exactly when the statistics count it under the
    total alone, and two statuses that differ only in the case of their
    letters get the same badge. *)
Theorem badge_agrees_with_statistics :
  (forall r : StatusRow,
      getStatusColor (row_status r) = "bg-muted text-muted-foreground"
      <-> unknown_status r = true)
  /\ (forall s t : string,
         eqb_ignore_case s t = true ->
         getStatusColor (Some s) = getStatusColor (Some t)).
Proof.
  split.
  - intros r. rewrite getStatusColor_row. unfold unknown_status.
    destruct (has_status "Registered" r); [split; discriminate|].
    destruct (has_status "Assigned" r); [split; discriminate|].
    destruct (has_status "In-Progress" r); [split; discriminate|].
    destruct (has_status "Resolved" r); [split; discriminate|].
    split; reflexivity.
  - intros s t Hst. rewrite eqb_ignore_case_lower in Hst.
    apply String.eqb_eq in Hst.
    unfold getStatusColor. cbn [option_map]. now rewrite Hst.
Qed.

(** ** The two fetches *)

Lemma stats_outcomes (W : Type) (answer : forall X, portalE X -> W -> X * W)
      (w : W) :
  let tr := trace answer fetchStats w in
  toasts tr = []
  /\ ((exists r,
          statuses_answers tr = [Fulfilled r]
          /\ Postgrest.error r = None
          /\ calls tr = [(stats_query, true)]
          /\ setters tr = [setStats (reduce_stats (Postgrest.data r))])
      \/ (calls tr = [(stats_query, false)]
          /\ (forall r, In (Fulfilled r) (statuses_answers tr) ->
                        Postgrest.error r <> None)
          /\ setters tr = [])).
Proof.
  unfold trace, fetchStats, stats_query. cbn.
  answered answer. destruct a as [r|reason]; cbn.
  - destruct (Postgrest.error r) as [e|] eqn:He; cbn.
    + answered answer. split; [reflexivity|]. right.
      unfold calls, setters, statuses_answers; cbn. rewrite He.
      repeat split. intros r' [H|[]]. congruence.
    + answered answer. split; [reflexivity|]. left. exists r.
      unfold calls, setters, statuses_answers; cbn. rewrite He.
      repeat split.
  - answered answer. split; [reflexivity|]. right.
    unfold calls, setters, statuses_answers; cbn.
    repeat split. intros r' [H|[]]. discriminate.
Qed.

(** X3.  [fetchStats] makes one request, for the status column of all
    complaints, with no predicate and no range, whatever the filters and
    the page are.  It never shows a toast.  When the request fails the
    state is left as it was, so the counters shown are the previous
    ones; when it succeeds only the counters change, and an answer
    without data sets them all to zero. *)
Theorem stats_fetch_is_silent_and_unfiltered
        (W : Type) (answer : forall X, portalE X -> W -> X * W) (w : W)
        (st : State) :
  let tr := trace answer fetchStats w in
  requests tr = [stats_query]
  /\ Postgrest.eqs stats_query = [] /\ Postgrest.rows stats_query = None
  /\ toasts tr = []
  /\ (In (stats_query, false) (calls tr) -> after st tr = st)
  /\ complaints (after st tr) = complaints st
  /\ totalComplaints (after st tr) = totalComplaints st
  /\ loading (after st tr) = loading st
  /\ same_dialog st (after st tr)
  /\ same_browsing st (after st tr)
  /\ (forall r, In (Fulfilled r) (statuses_answers tr) ->
                Postgrest.error r = None -> Postgrest.data r = None ->
                stats (after st tr) = stats0).
Proof.
  intros tr.
  destruct (stats_outcomes answer w)
    as (Ht & [(r & Ha & He & Hc & Hs) | (Hc & Ha & Hs)]);
    fold tr in Ht, Ha, Hc, Hs;
    unfold requests, after, same_dialog, same_browsing;
    rewrite Hc, Hs, Ht; destruct st; cbn; repeat split.
  - intros [H|[]]. inversion H.
  - intros r' Hin _ Hd. rewrite Ha in Hin. destruct Hin as [H|[]].
    inversion H; subst. rewrite Hd. reflexivity.
  - intros r' Hin He. exfalso. exact (Ha r' Hin He).
Qed.

(** A failed request for the statistics on a page that shows some. *)
Lemma stats_fetch_is_silent_and_unfiltered_witness :
  In (stats_query, false)
     (calls (trace (Scenario.database []) fetchStats [false]))
  /\ after Scenario.pothole_page
           (trace (Scenario.database []) fetchStats [false])
     = Scenario.pothole_page.
Proof.
  assert (H : In (stats_query, false)
                 (calls (trace (Scenario.database []) fetchStats [false]))).
  { left. reflexivity. }
  split; [exact H|].
  destruct (stats_fetch_is_silent_and_unfiltered
              (Scenario.database []) [false] Scenario.pothole_page)
    as (_ & _ & _ & _ & Hfail & _).
  exact (Hfail H).
Defined.

(** X4.  Whatever the database answers, a fetch of the list makes
    exactly one request and leaves the loading flag off; it shows the
    error toast when the request failed and no toast when it succeeded;
    it never touches the counters, the dialog and its form, the filters
    or the page.  After a success the list and the total are those of
    the answer, the empty list and zero standing in for null. *)
Theorem list_fetch_always_settles
        (W : Type) (answer : forall X, portalE X -> W -> X * W) (w : W)
        (st : State) (page : Z) :
  let tr := trace answer (fetchComplaints st page) w in
  let q := complaints_query st page in
  requests tr = [q]
  /\ loading (after st tr) = false
  /\ (In (q, false) (calls tr)
      <-> toasts tr = [destructive "Error fetching complaints"])
  /\ (In (q, true) (calls tr) <-> toasts tr = [])
  /\ stats (after st tr) = stats st
  /\ same_dialog st (after st tr)
  /\ same_browsing st (after st tr)
  /\ (forall r, In (Fulfilled r) (complaints_answers tr) ->
                Postgrest.error r = None ->
                complaints (after st tr)
                = match Postgrest.data r with Some l => l | None => [] end
                /\ totalComplaints (after st tr)
                   = match Postgrest.count r with Some n => n | None => 0 end).
Proof.
  intros tr q.
  destruct (fetch_outcomes answer w st page)
    as [(r & Ha & He & Hc & Ht & Hs) | (Hc & Ha & Ht & Hs)];
    fold tr q in Ha, Hc, Ht, Hs;
    unfold requests, after, same_dialog, same_browsing;
    rewrite Hc, Hs, Ht; destruct st; cbn.
  - split; [reflexivity|]. split; [reflexivity|].
    split; [split; [intros [H|[]]; inversion H | discriminate]|].
    split; [split; [reflexivity | intros _; left; reflexivity]|].
    split; [reflexivity|]. split; [repeat split|]. split; [repeat split|].
    intros r' Hin _. rewrite Ha in Hin. destruct Hin as [H|[]].
    inversion H; subst. split; reflexivity.
  - split; [reflexivity|]. split; [reflexivity|].
    split; [split; [reflexivity | intros _; left; reflexivity]|].
    split; [split; [intros [H|[]]; inversion H | discriminate]|].
    split; [reflexivity|]. split; [repeat split|]. split; [repeat split|].
    intros r' Hin Herr. exfalso. exact (Ha r' Hin Herr).
Qed.

(** A fetch that is refused, on the page that lists the pothole. *)
Lemma list_fetch_always_settles_witness :
  In (complaints_query Scenario.pothole_page 1, false)
     (calls (trace (Scenario.database [])
                   (fetchComplaints Scenario.pothole_page 1) [false]))
  /\ toasts (trace (Scenario.database [])
                   (fetchComplaints Scenario.pothole_page 1) [false])
     = [destructive "Error fetching complaints"].
Proof.
  assert (H : In (complaints_query Scenario.pothole_page 1, false)
                 (calls (trace (Scenario.database [])
                               (fetchComplaints Scenario.pothole_page 1)
                               [false]))).
  { left. reflexivity. }
  split; [exact H|].
  destruct (list_fetch_always_settles (Scenario.database []) [false]
              Scenario.pothole_page 1) as (_ & _ & Hfail & _).
  apply Hfail. exact H.
Defined.

(** ** The states the page can reach *)

Lemma mem_In (v : string) (l : list string) : mem v l = true -> In v l.
Proof.
  unfold mem. rewrite existsb_exists. intros (x & Hin & Heq).
  apply String.eqb_eq in Heq. now subst.
Qed.

Lemma form_filled_dec (st : State) :
  (exists c, form_filled st c)
  \/ handleAssignWorker st = toast (destructive "Please fill all fields").
Proof.
  unfold handleAssignWorker, form_filled.
  destruct (selectedComplaint st) as [c|]; [|right; reflexivity].
  destruct (workerName st) as [|a1 n]; [right; reflexivity|].
  destruct (workerContact st) as [|a2 k]; [right; reflexivity|].
  destruct (newStatus st) as [|a3 s]; [right; reflexivity|].
  left. exists c. repeat split; discriminate.
Qed.

(** Every available event does what its kind says, whatever the
    environment answers. *)
Lemma handle_effects (W : Type) (answer : forall X, portalE X -> W -> X * W)
      (w : W) (st : State) (ev : page_event) :
  available st ev = true ->
  let tr := trace answer (handle st ev) w in
  effects_of st ev (setters tr) (requests tr).
Proof.
  intros Hav. destruct ev as [i| v | v | | | |]; cbn [handle effects_of].
  - destruct i as [index|v|v|v|v| |]; cbn [on effects_of];
      cbn [available enabled] in Hav.
    + apply andb_prop in Hav as [_ Hav].
      destruct (nth_error (complaints st) index) as [c|]; [|discriminate].
      apply negb_true_iff in Hav.
      exists c. split; [reflexivity|]. split; [exact Hav|].
      unfold trace, openAssignDialog; cbn. do 5 answered answer.
      split; reflexivity.
    + apply andb_prop in Hav as [Hd Hm]. apply mem_In in Hm.
      split; [exact Hm|]. split.
      * unfold dialog_rendered in Hd. apply andb_prop in Hd as [_ Hd].
        destruct (selectedComplaint st); [discriminate | discriminate Hd].
      * unfold trace; cbn. answered answer. split; reflexivity.
    + unfold trace; cbn. answered answer. split; reflexivity.
    + unfold trace; cbn. answered answer. split; reflexivity.
    + unfold trace; cbn. answered answer. split; reflexivity.
    + destruct (form_filled_dec st) as [[c Hf] | Hrej].
      * right. exists c. split; [exact Hf|].
        destruct (assign_outcomes answer w Hf)
          as [(Hc & _ & Hs & _) | [(Hc & _ & Hs & _) | (Hc & _ & Hs & _)]];
          unfold requests; rewrite Hc, Hs; cbn; auto.
      * left. rewrite Hrej. unfold trace; cbn. answered answer.
        split; reflexivity.
    + unfold trace; cbn. answered answer. split; reflexivity.
  - unfold trace, onIssueTypeChange; cbn. do 2 answered answer.
    split; reflexivity.
  - unfold trace, onStatusFilterChange; cbn. do 2 answered answer.
    split; reflexivity.
  - cbn [available] in Hav. apply negb_true_iff in Hav.
    unfold previous_disabled in Hav.
    apply Z.eqb_neq in Hav. split; [exact Hav|].
    unfold trace, onPreviousClick; cbn. answered answer. split; reflexivity.
  - cbn [available] in Hav. apply negb_true_iff in Hav.
    unfold next_disabled in Hav.
    rewrite Z.geb_leb in Hav. apply Z.leb_gt in Hav. split; [exact Hav|].
    unfold trace, onNextClick; cbn. answered answer. split; reflexivity.
  - destruct (fetch_outcomes answer w st (currentPage st))
      as [(r & _ & _ & Hc & _ & Hs) | (Hc & _ & _ & Hs)];
      unfold requests; rewrite Hc, Hs; cbn; split; eauto.
  - destruct (stats_outcomes answer w)
      as (_ & [(r & _ & _ & Hc & Hs) | (Hc & _ & Hs)]);
      unfold requests; rewrite Hc, Hs; cbn; split; eauto.
Qed.

(** ** Filters and pagination *)

Lemma all_or_items (value : string) (items : list string) :
  In value items -> ~ In "" items ->
  (value = "all" /\ all_or value = "")
  \/ (value <> "all" /\ value <> "" /\ all_or value = value).
Proof.
  intros Hin Hne. unfold all_or.
  destruct (String.eqb value "all") eqn:He.
  - apply String.eqb_eq in He. left. split; [exact He | reflexivity].
  - apply String.eqb_neq in He. right. split; [exact He|].
    split; [|reflexivity]. intros ->. exact (Hne Hin).
Qed.

(** X5.  Choosing an item of the status selector makes no request by
    itself, puts the page back to 1 and keeps the issue filter.  The
    request a fetch then builds for the new state covers the first page;
    with the item "all" it carries no predicate on the status, and with
    any other item exactly that status.  The issue selector does the
    same for the issue type and keeps the status filter. *)
Theorem filter_change_restarts_at_first_page
        (W : Type) (answer : forall X, portalE X -> W -> X * W) (w : W)
        (st : State) (value : string) :
  (In value status_filter_items ->
   let tr := trace answer (onStatusFilterChange st value) w in
   let st' := after st tr in
   let q := complaints_query st' (currentPage st') in
   requests tr = []
   /\ currentPage st' = 1
   /\ filter_issueType (filters st') = filter_issueType (filters st)
   /\ Postgrest.rows q = Some (0, complaintsPerPage st - 1)
   /\ (value = "all" -> forall v, ~ In ("status", v) (Postgrest.eqs q))
   /\ (value <> "all" ->
       forall v, In ("status", v) (Postgrest.eqs q) <-> v = value))
  /\ (In value issue_filter_items ->
      let tr := trace answer (onIssueTypeChange st value) w in
      let st' := after st tr in
      let q := complaints_query st' (currentPage st') in
      requests tr = []
      /\ currentPage st' = 1
      /\ filter_status (filters st') = filter_status (filters st)
      /\ Postgrest.rows q = Some (0, complaintsPerPage st - 1)
      /\ (value = "all" -> forall v, ~ In ("issue_type", v) (Postgrest.eqs q))
      /\ (value <> "all" ->
          forall v, In ("issue_type", v) (Postgrest.eqs q) <-> v = value)).
Proof.
  split; intros Hin tr st' q.
  - assert (Hst' : st' = apply_setter
                           (apply_setter st
                              (setFilters
                                 {| filter_status := all_or value;
                                    filter_issueType :=
                                      filter_issueType (filters st) |}))
                           (setCurrentPage 1)).
    { subst st' tr. unfold trace, onStatusFilterChange; cbn.
      do 2 answered answer. reflexivity. }
    assert (Hreq : requests tr = []).
    { subst tr. unfold trace, onStatusFilterChange; cbn.
      do 2 answered answer. reflexivity. }
    assert (Hitems : ~ In "" status_filter_items).
    { cbn. intros [H|[H|[H|[H|[H|[]]]]]]; discriminate. }
    destruct (complaints_query_shape st' (currentPage st'))
      as (_ & _ & He & Hr & _). fold q in He, Hr.
    clearbody st' tr q. subst st'. destruct st; cbn in He, Hr |- *.
    split; [exact Hreq|]. split; [reflexivity|]. split; [reflexivity|].
    split; [rewrite Hr; do 2 f_equal; lia|].
    destruct (@all_or_items value _ Hin Hitems) as [(Hall & Ho) | (Hnall & Hne & Ho)];
      rewrite Ho in He; rewrite He; split.
    + intros _ v Hv. apply in_app_iff in Hv.
      rewrite !in_equality_predicate in Hv.
      destruct Hv as [(_ & _ & H) | (H & _)]; [congruence | discriminate].
    + intros Hc. contradiction.
    + intros Hc. contradiction.
    + intros _ v. rewrite in_app_iff, !in_equality_predicate. split.
      * intros [(_ & H & _) | (H & _)]; [exact H | discriminate].
      * intros ->. left. repeat split. exact Hne.
  - assert (Hst' : st' = apply_setter
                           (apply_setter st
                              (setFilters
                                 {| filter_status := filter_status (filters st);
                                    filter_issueType := all_or value |}))
                           (setCurrentPage 1)).
    { subst st' tr. unfold trace, onIssueTypeChange; cbn.
      do 2 answered answer. reflexivity. }
    assert (Hreq : requests tr = []).
    { subst tr. unfold trace, onIssueTypeChange; cbn.
      do 2 answered answer. reflexivity. }
    assert (Hitems : ~ In "" issue_filter_items).
    { cbn. intros H. repeat (destruct H as [H|H]; [discriminate|]).
      destruct H. }
    destruct (complaints_query_shape st' (currentPage st'))
      as (_ & _ & He & Hr & _). fold q in He, Hr.
    clearbody st' tr q. subst st'. destruct st; cbn in He, Hr |- *.
    split; [exact Hreq|]. split; [reflexivity|]. split; [reflexivity|].
    split; [rewrite Hr; do 2 f_equal; lia|].
    destruct (@all_or_items value _ Hin Hitems) as [(Hall & Ho) | (Hnall & Hne & Ho)];
      rewrite Ho in He; rewrite He; split.
    + intros _ v Hv. apply in_app_iff in Hv.
      rewrite !in_equality_predicate in Hv.
      destruct Hv as [(H & _) | (_ & _ & H)]; [discriminate | congruence].
    + intros Hc. contradiction.
    + intros Hc. contradiction.
    + intros _ v. rewrite in_app_iff, !in_equality_predicate. split.
      * intros [(H & _) | (_ & H & _)]; [discriminate | exact H].
      * intros ->. right. repeat split. exact Hne.
Qed.

(** Choosing Resolved on a page that was filtered on another status. *)
Lemma filter_change_restarts_at_first_page_witness :
  In "Resolved" status_filter_items
  /\ currentPage
       (after Scenario.pothole_page
              (trace (Scenario.database [])
                     (onStatusFilterChange Scenario.pothole_page "Resolved")
                     []))
     = 1.
Proof.
  assert (H : In "Resolved" status_filter_items).
  { right; right; right; right; left; reflexivity. }
  split; [exact H|].
  destruct (filter_change_restarts_at_first_page
              (Scenario.database []) [] Scenario.pothole_page "Resolved")
    as (Hs & _).
  destruct (Hs H) as (_ & Hp & _). exact Hp.
Defined.

Lemma ceil_div_le (a b n : Z) : 0 < b -> (ceil_div a b <= n <-> a <= n * b).
Proof.
  intros Hb. unfold ceil_div. split.
  - intros H.
    assert (Hq : - n <= - a / b) by lia.
    pose proof (Z.mul_div_le (- a) b Hb). nia.
  - intros H.
    assert (Hq : - n <= - a / b).
    { apply Z.div_le_lower_bound; [exact Hb | lia]. }
    lia.
Qed.

(** X6.  With a positive page size, the Next button is disabled exactly
    when the current page is the last page of the label or beyond it,
    and the label counts the pages exactly: the rows do not fit in one
    page less.  With no row at all the label counts zero pages and Next
    is disabled on every page from 0 on. *)
Theorem next_button_agrees_with_page_label (st : State) :
  0 < complaintsPerPage st ->
  (next_disabled st = true <-> page_count st <= currentPage st)
  /\ totalComplaints st <= page_count st * complaintsPerPage st
  /\ (page_count st - 1) * complaintsPerPage st < totalComplaints st
  /\ (totalComplaints st = 0 ->
      page_count st = 0 /\ (0 <= currentPage st -> next_disabled st = true)).
Proof.
  intros Hp. unfold page_count, next_disabled.
  split; [|split; [|split]].
  - rewrite (ceil_div_le (totalComplaints st) (currentPage st) Hp).
    rewrite Z.geb_le. lia.
  - apply (ceil_div_le _ _ Hp). lia.
  - destruct (Z_lt_le_dec
                ((ceil_div (totalComplaints st) (complaintsPerPage st) - 1)
                 * complaintsPerPage st) (totalComplaints st)) as [H|H];
      [exact H|].
    apply (ceil_div_le _ _ Hp) in H. lia.
  - intros Hz. rewrite Hz. split.
    + unfold ceil_div. cbn [Z.opp]. rewrite Zdiv_0_l. reflexivity.
    + intros Hc. apply Z.geb_le. nia.
Qed.

(** Twelve complaints, five to a page, on the third page. *)
Lemma next_button_agrees_with_page_label_witness :
  0 < complaintsPerPage
        (apply_setter (apply_setter initial (setTotalComplaints 12))
                      (setCurrentPage 3))
  /\ page_count
       (apply_setter (apply_setter initial (setTotalComplaints 12))
                     (setCurrentPage 3)) = 3
  /\ next_disabled
       (apply_setter (apply_setter initial (setTotalComplaints 12))
                     (setCurrentPage 3)) = true.
Proof.
  assert (H : 0 < complaintsPerPage
                    (apply_setter
                       (apply_setter initial (setTotalComplaints 12))
                       (setCurrentPage 3))) by reflexivity.
  split; [exact H|]. split; [reflexivity|].
  destruct (next_button_agrees_with_page_label
              (apply_setter (apply_setter initial (setTotalComplaints 12))
                            (setCurrentPage 3)) H) as (Hn & _).
  apply Hn. vm_compute. discriminate.
Defined.

Lemma resolved_is_disabled (c : Complaint) :
  update_disabled c = false -> status c <> Some "Resolved".
Proof.
  unfold update_disabled, is_lit. destruct (status c) as [v|]; [|discriminate].
  intros H Heq. inversion Heq; subst. discriminate.
Qed.

(** Both invariants survive every event. *)
Lemma invariants_step (st : State) (ev : page_event)
      (sets : list setter) (reqs : list Postgrest.query) :
  paging_invariant st -> selection_invariant st ->
  effects_of st ev sets reqs ->
  paging_invariant (fold_left apply_setter sets st)
  /\ selection_invariant (fold_left apply_setter sets st).
Proof.
  intros [Hp Hs] Hsel Heff.
  unfold paging_invariant, selection_invariant in *.
  destruct st as [l s0 ld o sc wn wc sn ns f cp pp tc].
  cbn [currentPage complaintsPerPage selectedComplaint newStatus
       complaints filters totalComplaints] in *.
  destruct ev as [i| v | v | | | |]; cbn [effects_of] in Heff.
  - destruct i as [index|v|v|v|v| |]; cbn [effects_of] in Heff.
    + destruct Heff as (c & _ & Hdis & -> & _). cbn.
      split; [auto|]. intros c' Hc'. inversion Hc'; subst c'.
      split; [exact (@resolved_is_disabled c Hdis) | right; reflexivity].
    + destruct Heff as (Hin & _ & -> & _). cbn.
      split; [auto|]. intros c Hc. destruct (Hsel c Hc) as [Hr _].
      split; [exact Hr | left; exact Hin].
    + destruct Heff as (-> & _). cbn. auto.
    + destruct Heff as (-> & _). cbn. auto.
    + destruct Heff as (-> & _). cbn. auto.
    + destruct Heff as [(-> & _) | (c & _ & [(-> & _) | [(-> & _) | (-> & _)]])];
        cbn; auto.
      split; [auto|]. intros c' Hc'. discriminate.
    + destruct Heff as (-> & _). cbn. auto.
  - destruct Heff as (-> & _). cbn. split; [split; [lia | exact Hs] | exact Hsel].
  - destruct Heff as (-> & _). cbn. split; [split; [lia | exact Hs] | exact Hsel].
  - destruct Heff as (Hne & -> & _). cbn in Hne |- *. split; [split; [lia | exact Hs] | exact Hsel].
  - destruct Heff as (_ & -> & _). cbn. split; [split; [lia | exact Hs] | exact Hsel].
  - destruct Heff as (_ & [(l' & n & ->) | ->]); cbn; auto.
  - destruct Heff as (_ & [-> | (s & ->)]); cbn; auto.
Qed.

Lemma reachable_invariants (st : State) :
  reachable st -> paging_invariant st /\ selection_invariant st.
Proof.
  intros Hreach. induction Hreach as [|st ev W answer w Hreach IH Hav].
  - split.
    + split; [cbn; lia | reflexivity].
    + intros c Hc. discriminate.
  - destruct IH as [IHp IHs].
    exact (@invariants_step st ev _ _ IHp IHs
             (@handle_effects W answer w st ev Hav)).
Qed.

Lemma browse_reachable (W : Type) (answer : forall X, portalE X -> W -> X * W)
      (script : list page_event) :
  forall st w st' w',
    reachable st -> browse answer script st w = Some (st', w') ->
    reachable st'.
Proof.
  induction script as [|ev rest IH]; intros st w st' w' Hreach.
  - cbn. intros H; inversion H; subst; exact Hreach.
  - cbn [browse]. destruct (available st ev) eqn:Hav; [|discriminate].
    pose proof (@reachable_step st ev W answer w Hreach Hav) as Hnext.
    unfold trace in Hnext.
    destruct (run answer (handle st ev) w) as [[r w1] tr]; cbn [snd] in Hnext.
    apply IH. exact Hnext.
Qed.

(** X7.  In every state the page can reach, through any sequence of
    available events and whatever the database answers, the page number
    is at least 1 and the page size is 5: the request for the current
    page asks for five consecutive rows starting at a multiple of five
    that is not negative. *)
Theorem page_number_stays_positive (st : State) :
  reachable st ->
  1 <= currentPage st
  /\ complaintsPerPage st = 5
  /\ Postgrest.rows (complaints_query st (currentPage st))
     = Some (5 * (currentPage st - 1), 5 * (currentPage st - 1) + 4)
  /\ 0 <= 5 * (currentPage st - 1).
Proof.
  intros Hreach.
  destruct (@reachable_invariants st Hreach) as [[Hp Hs] _].
  destruct (complaints_query_shape st (currentPage st))
    as (_ & _ & _ & Hr & _).
  rewrite Hr, Hs. repeat split; try lia. do 2 f_equal; lia.
Qed.

(** Twelve complaints browsed to the second page. *)
Lemma page_number_stays_positive_witness :
  reachable paged /\ currentPage paged = 2 /\ 1 <= currentPage paged.
Proof.
  assert (H : reachable paged).
  { apply (@browse_reachable _ (Scenario.database twelve)
             [FetchComplaints; ClickNext; ClickNext; ClickPrevious]
             initial [] paged []).
    - apply reachable_initial.
    - vm_compute. reflexivity. }
  split; [exact H|]. split; [reflexivity|].
  destruct (@page_number_stays_positive paged H) as (Hp & _). exact Hp.
Defined.

Lemma or_else_nonempty (s : option string) (v : string) :
  v <> "" -> v = Js.or_else s "" -> s = Some v.
Proof.
  intros Hv. destruct s as [[|a r]|]; cbn; intros H; subst; try contradiction.
  reflexivity.
Qed.

(** X8.  In every state the page can reach, the only event that writes
    to the database is the submit button of the dialog, and what it
    writes is the update and the insert for the row the dialog holds in
    [selectedComplaint]; the status of that held row is other than
    Resolved, and the status an update sets is Assigned, In-Progress or
    Resolved, or else the status of the held row.  This is about the row
    the dialog holds, not about what the list shows when the button is
    pressed: the list may have been fetched again since and show the
    complaint with another status. *)
Theorem writes_come_from_the_dialog
        (st : State) (ev : page_event)
        (W : Type) (answer : forall X, portalE X -> W -> X * W) (w : W)
        (q : Postgrest.query) :
  reachable st ->
  available st ev = true ->
  In q (writes (trace answer (handle st ev) w)) ->
  ev = Assignment ClickUpdateStatus
  /\ exists c,
      selectedComplaint st = Some c
      /\ status c <> Some "Resolved"
      /\ (q = update_request c st \/ q = insert_request c st)
      /\ forall s, written_status q = Some s ->
                   In s status_options \/ status c = Some s.
Proof.
  intros Hreach Hav Hq.
  destruct (@reachable_invariants st Hreach) as [_ Hsel].
  pose proof (@handle_effects W answer w st ev Hav) as Heff.
  cbv zeta in Heff. unfold writes in Hq.
  destruct ev as [i| v | v | | | |]; cbn [effects_of] in Heff.
  - destruct i as [index|v|v|v|v| |]; cbn [effects_of] in Heff.
    + destruct Heff as (c & _ & _ & _ & Hr). rewrite Hr in Hq. destruct Hq.
    + destruct Heff as (_ & _ & _ & Hr). rewrite Hr in Hq. destruct Hq.
    + destruct Heff as (_ & Hr). rewrite Hr in Hq. destruct Hq.
    + destruct Heff as (_ & Hr). rewrite Hr in Hq. destruct Hq.
    + destruct Heff as (_ & Hr). rewrite Hr in Hq. destruct Hq.
    + split; [reflexivity|].
      destruct Heff as [(_ & Hr) | (c & Hf & Hcases)];
        [rewrite Hr in Hq; destruct Hq|].
      destruct Hf as (Hc & _ & _ & Hns).
      destruct (Hsel c Hc) as [Hres Htarget].
      exists c. split; [exact Hc|]. split; [exact Hres|].
      assert (Hq' : q = update_request c st \/ q = insert_request c st).
      { destruct Hcases as [(_ & Hr) | [(_ & Hr) | (_ & Hr)]];
          rewrite Hr in Hq; cbn in Hq; intuition auto. }
      split; [exact Hq'|].
      intros s Hs. destruct Hq' as [-> | ->]; [|discriminate Hs].
      cbn in Hs. inversion Hs; subst s.
      destruct Htarget as [Hin | Hpre]; [left; exact Hin|].
      right. exact (@or_else_nonempty (status c) (newStatus st) Hns Hpre).
    + destruct Heff as (_ & Hr). rewrite Hr in Hq. destruct Hq.
  - destruct Heff as (_ & Hr). rewrite Hr in Hq. destruct Hq.
  - destruct Heff as (_ & Hr). rewrite Hr in Hq. destruct Hq.
  - destruct Heff as (_ & _ & Hr). rewrite Hr in Hq. destruct Hq.
  - destruct Heff as (_ & _ & Hr). rewrite Hr in Hq. destruct Hq.
  - destruct Heff as (Hr & _). rewrite Hr in Hq. exfalso.
    destruct (complaints_query_shape st (currentPage st)) as (_ & Hop & _).
    cbn [filter] in Hq. unfold is_write in Hq. rewrite Hop in Hq.
    destruct Hq.
  - destruct Heff as (Hr & _). rewrite Hr in Hq. destruct Hq.
Qed.

(** The pothole, in progress, is about to be sent back to Assigned. *)
Lemma writes_come_from_the_dialog_witness :
  reachable about_to_assign
  /\ available about_to_assign (Assignment ClickUpdateStatus) = true
  /\ In (update_request Scenario.pothole about_to_assign)
        (writes (trace (Scenario.database [Scenario.pothole])
                       (handle about_to_assign (Assignment ClickUpdateStatus))
                       []))
  /\ exists c, selectedComplaint about_to_assign = Some c
               /\ status c <> Some "Resolved".
Proof.
  assert (H1 : reachable about_to_assign).
  { apply (@browse_reachable _ (Scenario.database [Scenario.pothole])
             [FetchComplaints;
              Assignment (ClickUpdate 0);
              Assignment (ChooseNewStatus "Assigned");
              Assignment (EditWorkerName "Asha");
              Assignment (EditWorkerContact "9800000000")]
             initial [] about_to_assign []).
    - apply reachable_initial.
    - vm_compute. reflexivity. }
  assert (H2 : available about_to_assign (Assignment ClickUpdateStatus) = true)
    by reflexivity.
  assert (H3 : In (update_request Scenario.pothole about_to_assign)
                  (writes (trace (Scenario.database [Scenario.pothole])
                                 (handle about_to_assign
                                         (Assignment ClickUpdateStatus))
                                 []))).
  { vm_compute. left. reflexivity. }
  split; [exact H1|]. split; [exact H2|]. split; [exact H3|].
  destruct (@writes_come_from_the_dialog
              about_to_assign (Assignment ClickUpdateStatus)
              _ (Scenario.database [Scenario.pothole]) [] _ H1 H2 H3)
    as (_ & c & Hc & Hres & _).
  exists c. split; [exact Hc | exact Hres].
Defined.

(** ** Status transitions *)

Lemma status_not_resolved (c : Complaint) :
  update_disabled c = false <-> status c <> Some "Resolved".
Proof.
  unfold update_disabled, is_lit. destruct (status c) as [v|].
  - rewrite String.eqb_neq. split; congruence.
  - split; [discriminate | reflexivity].
Qed.

(** On a filled form the first call of the workflow is the update with
    the status of the form. *)
Lemma first_call_is_the_update
      (W : Type) (answer : forall X, portalE X -> W -> X * W) (w : W)
      (st : State) (c : Complaint) :
  form_filled st c ->
  exists ok rest,
    calls (trace answer (handleAssignWorker st) w)
    = (update_request c st, ok) :: rest.
Proof.
  intros Hform.
  destruct (assign_outcomes answer w Hform)
    as [(Hc & _) | [(Hc & _) | (Hc & _)]]; rewrite Hc; eauto.
Qed.

(** A dialog opened on a row whose Update button is enabled stays open
    while the list is fetched again, and its submit sets the target on
    the complaint whatever row the list shows by then.  The target is an
    item of the selector, or Registered when that was the status of the
    row the dialog was opened on. *)
Lemma dialog_accepts (held c : Complaint) (target : string) :
  id held = id c ->
  update_disabled held = false ->
  In target status_options
  \/ (target = "Registered" /\ status held = Some "Registered") ->
  accepts held c target.
Proof.
  intros Hid Hdis Htarget.
  assert (Hrun : exists st,
             browse Scenario.changing (refetch_under_dialog target)
                    initial [[held]; [c]] = Some (st, [])
             /\ complaints st = [c]
             /\ selectedComplaint st = Some held
             /\ assignDialogOpen st = true
             /\ workerName st = "Asha"
             /\ workerContact st = "9800000000"
             /\ newStatus st = target).
  { destruct Htarget as [[<-|[<-|[<-|[]]]] | [-> Hst]];
      unfold refetch_under_dialog; cbn; rewrite Hdis; cbn;
      try rewrite Hst; cbn;
      eexists; (split; [reflexivity|]); repeat split. }
  destruct Hrun as (st & Hb & Hl & Hsel & Hopen & Hn & Hc & Hs).
  exists st.
  split; [exact (browse_reachable _ _ _ reachable_initial Hb)|].
  split; [exact Hl|]. split; [exact Hsel|]. split; [exact Hid|].
  split.
  { cbn [available enabled]. unfold dialog_rendered.
    rewrite Hopen, Hsel. reflexivity. }
  intros W answer w. cbn [handle on].
  assert (Hform : form_filled st held).
  { unfold form_filled. rewrite Hsel, Hn, Hc, Hs.
    repeat split; try discriminate.
    destruct Htarget as [[<-|[<-|[<-|[]]]] | [-> _]]; discriminate. }
  destruct (first_call_is_the_update answer w Hform) as (ok & rest & Hcalls).
  exists ok, rest. rewrite Hcalls. unfold update_request.
  rewrite Hid, Hs, Hn. reflexivity.
Qed.

(** C7.  The workflow compares the target with nothing: once a
    complaint is selected and the form is filled, its first call is the
    update that sets the status of the form, whatever the status of the
    complaint.  On the page, a complaint listed with a status other than
    Resolved can be taken to each of Assigned, In-Progress and Resolved,
    forwards or backwards.  The Update button of a row listed as
    Resolved is disabled and the selector does not offer Registered, but
    that only bears on the moment the dialog is opened: a dialog opened
    when the complaint was Registered is still there after the list is
    fetched again, and its submit sets any of the four statuses on the
    complaint, whatever its status is by then, Resolved included. *)
Theorem status_transitions_are_not_constrained :
  (forall (W : Type) (answer : forall X, portalE X -> W -> X * W) (w : W)
          (st : State) (c : Complaint),
      form_filled st c ->
      exists ok rest,
        calls (trace answer (handleAssignWorker st) w)
        = (Postgrest.eq "id" (id c)
             (Postgrest.update "complaints"
                {| Postgrest.set_status := newStatus st;
                   Postgrest.set_assigned_to := workerName st |}), ok)
            :: rest)
  /\ (forall (c : Complaint) (target : string),
         status c <> Some "Resolved" ->
         In target status_options ->
         accepts c c target)
  /\ (forall (c : Complaint) (target : string),
         In target status_values ->
         accepts (earlier c "Registered") c target).
Proof.
  split; [|split].
  - intros W answer w st c Hform.
    exact (first_call_is_the_update answer w Hform).
  - intros c target Hs Hin. apply status_not_resolved in Hs.
    apply dialog_accepts; [reflexivity | exact Hs | left; exact Hin].
  - intros c target Hin.
    apply dialog_accepts; [reflexivity | reflexivity |].
    destruct Hin as [<-|Hin]; [right; split; reflexivity | left; exact Hin].
Qed.

(** A complaint that is listed as Resolved is set to In-Progress by a
    dialog that was opened on it before. *)
Lemma status_transitions_are_not_constrained_witness :
  In "In-Progress" status_values
  /\ status Scenario.closed = Some "Resolved"
  /\ accepts (earlier Scenario.closed "Registered") Scenario.closed
             "In-Progress".
Proof.
  assert (H : In "In-Progress" status_values)
    by (right; right; left; reflexivity).
  split; [exact H|]. split; [reflexivity|].
  destruct status_transitions_are_not_constrained as (_ & _ & H3).
  exact (H3 Scenario.closed "In-Progress" H).
Defined.

(** ** More of the assignment workflow *)

Lemma apply_insert_request (c : Complaint) (st : State)
      (db : RecordStore.Store) :
  let db' := RecordStore.apply_write (insert_request c st) db in
  RecordStore.status_updates_table db'
  = (RecordStore.status_updates_table db
     ++ [{| su_complaint_id := id c;
            su_status := newStatus st;
            su_assigned_to := workerName st;
            su_assigned_contact := workerContact st;
            su_note := statusNote st |}])%list
  /\ RecordStore.complaints_table db' = RecordStore.complaints_table db.
Proof. split; reflexivity. Qed.

(** X9.  When both writes succeed, they are the only two calls, the
    success toast is shown, the dialog is closed and every field of the
    form is emptied with no complaint selected, so that submitting again
    is rejected by the validation without any call.  In the tables the
    rows of the complaint carry the new status and worker, and exactly
    one audit row was appended, with the id of the complaint and the
    status, worker name, contact and note of the form. *)
Theorem assignment_success_resets_form
        (W : Type) (answer : forall X, portalE X -> W -> X * W) (w : W)
        (st : State) (c : Complaint) :
  form_filled st c ->
  let tr := trace answer (handleAssignWorker st) w in
  let st' := after st tr in
  In (insert_request c st, true) (calls tr) ->
  calls tr = [(update_request c st, true); (insert_request c st, true)]
  /\ toasts tr = [success_toast st c]
  /\ assignDialogOpen st' = false
  /\ selectedComplaint st' = None
  /\ workerName st' = "" /\ workerContact st' = ""
  /\ statusNote st' = "" /\ newStatus st' = ""
  /\ complaints st' = complaints st
  /\ handleAssignWorker st' = toast (destructive "Please fill all fields")
  /\ forall db,
      RecordStore.status_updates_table (RecordStore.replay db tr)
      = (RecordStore.status_updates_table db
         ++ [{| su_complaint_id := id c;
                su_status := newStatus st;
                su_assigned_to := workerName st;
                su_assigned_contact := workerContact st;
                su_note := statusNote st |}])%list
      /\ RecordStore.complaints_table (RecordStore.replay db tr)
         = map (fun x =>
                  if String.eqb (id x) (id c)
                  then RecordStore.patched
                         {| Postgrest.set_status := newStatus st;
                            Postgrest.set_assigned_to := workerName st |} x
                  else x)
               (RecordStore.complaints_table db).
Proof.
  intros Hform tr st' Hin.
  destruct (assign_outcomes answer w Hform)
    as [(Hc & Ht & Hs & Hdb) | [(Hc & Ht & Hs & Hdb) | (Hc & Ht & Hs & Hdb)]];
    fold tr in Hc, Ht, Hs, Hdb; rewrite Hc in Hin.
  - destruct Hin as [H|[]]. inversion H.
  - destruct Hin as [H|[H|[]]]; inversion H.
  - split; [exact Hc|]. split; [exact Ht|].
    assert (Hst' : st' = fold_left apply_setter form_reset st).
    { subst st'. unfold after. rewrite Hs. reflexivity. }
    assert (Hstore : forall db,
               RecordStore.replay db tr
               = RecordStore.apply_write (insert_request c st)
                   (RecordStore.apply_write (update_request c st) db))
      by exact Hdb.
    clearbody st' tr. subst st'.
    split; [destruct st; reflexivity|]. split; [destruct st; reflexivity|].
    split; [destruct st; reflexivity|]. split; [destruct st; reflexivity|].
    split; [destruct st; reflexivity|]. split; [destruct st; reflexivity|].
    split; [destruct st; reflexivity|]. split; [destruct st; reflexivity|].
    intros db. rewrite Hstore.
    destruct (apply_insert_request c st
                (RecordStore.apply_write (update_request c st) db))
      as [Haudit Hrows].
    destruct (apply_update_request c st db) as [Hrows' Haudit'].
    cbv zeta in Haudit, Hrows, Hrows', Haudit'.
    rewrite Haudit, Hrows, Hrows', Haudit'. split; reflexivity.
Qed.

(** Both writes on the pothole succeed. *)
Lemma assignment_success_resets_form_witness :
  form_filled Scenario.filled Scenario.pothole
  /\ In (insert_request Scenario.pothole Scenario.filled, true)
        (calls (trace (Scenario.database [Scenario.pothole])
                      (handleAssignWorker Scenario.filled) []))
  /\ selectedComplaint
       (after Scenario.filled
              (trace (Scenario.database [Scenario.pothole])
                     (handleAssignWorker Scenario.filled) []))
     = None.
Proof.
  assert (H1 : form_filled Scenario.filled Scenario.pothole).
  { repeat split; discriminate. }
  assert (H2 : In (insert_request Scenario.pothole Scenario.filled, true)
                  (calls (trace (Scenario.database [Scenario.pothole])
                                (handleAssignWorker Scenario.filled) []))).
  { vm_compute. right. left. reflexivity. }
  split; [exact H1|]. split; [exact H2|].
  destruct (@assignment_success_resets_form
              _ (Scenario.database [Scenario.pothole]) []
              Scenario.filled Scenario.pothole H1 H2)
    as (_ & _ & _ & Hsel & _).
  exact Hsel.
Defined.

Lemma open_dialog_state (W : Type) (answer : forall X, portalE X -> W -> X * W)
      (w : W) (st : State) (c : Complaint) :
  after st (trace answer (openAssignDialog c) w)
  = fold_left apply_setter (dialog_prefill c) st.
Proof.
  unfold trace, openAssignDialog; cbn. do 5 answered answer. reflexivity.
Qed.

(** X10.  The dialog can be submitted as it opens.  For a complaint
    with a status and an assigned worker, opening the dialog fills every
    required field, so a submit without any edit passes the validation:
    the update sets again the status and the worker the complaint has,
    and the audit row records the status text as the worker's contact.
    The note is not touched by the opening: what an earlier dialog left
    there goes into the audit row.  For a complaint without an assigned
    worker the same submit is rejected by the validation. *)
Theorem unedited_dialog_submits_status_as_contact
        (W : Type) (answer : forall X, portalE X -> W -> X * W) (w : W)
        (st : State) (c : Complaint) :
  let st1 := after st (trace answer (openAssignDialog c) w) in
  statusNote st1 = statusNote st
  /\ (forall s a,
         status c = Some s -> s <> "" -> assigned_to c = Some a -> a <> "" ->
         form_filled st1 c
         /\ update_request c st1
            = Postgrest.eq "id" (id c)
                (Postgrest.update "complaints"
                   {| Postgrest.set_status := s;
                      Postgrest.set_assigned_to := a |})
         /\ insert_request c st1
            = Postgrest.insert "complaint_status_updates"
                {| su_complaint_id := id c;
                   su_status := s;
                   su_assigned_to := a;
                   su_assigned_contact := s;
                   su_note := statusNote st |}
         /\ forall (V : Type) (reply : forall X, portalE X -> V -> X * V)
                   (v : V),
             exists ok rest,
               calls (trace reply (handleAssignWorker st1) v)
               = (update_request c st1, ok) :: rest)
  /\ (assigned_to c = None \/ status c = None ->
      handleAssignWorker st1 = toast (destructive "Please fill all fields")).
Proof.
  intros st1. subst st1. rewrite open_dialog_state.
  split; [destruct st; reflexivity|]. split.
  - intros s a Hs Hne Ha Hna.
    assert (Hfilled : form_filled
                        (fold_left apply_setter (dialog_prefill c) st) c).
    { unfold dialog_prefill. rewrite Hs, Ha.
      destruct s as [|x s]; [contradiction|].
      destruct a as [|y a]; [contradiction|].
      destruct st; cbn. repeat split; discriminate. }
    split; [exact Hfilled|].
    split.
    { unfold update_request, dialog_prefill. rewrite Hs, Ha.
      destruct s as [|x s]; [contradiction|].
      destruct a as [|y a]; [contradiction|].
      destruct st; reflexivity. }
    split.
    { unfold insert_request, dialog_prefill. rewrite Hs, Ha.
      destruct s as [|x s]; [contradiction|].
      destruct a as [|y a]; [contradiction|].
      destruct st; reflexivity. }
    intros V reply v.
    destruct (assign_outcomes reply v Hfilled)
      as [(Hc & _) | [(Hc & _) | (Hc & _)]]; rewrite Hc; eauto.
  - intros Hnone. unfold handleAssignWorker, dialog_prefill.
    destruct Hnone as [H | H]; rewrite H; destruct st; cbn;
      rewrite ?orb_true_r; reflexivity.
Qed.

(** A complaint that is assigned to someone, opened and submitted. *)
Lemma unedited_dialog_submits_status_as_contact_witness :
  status assigned_pothole = Some "Assigned"
  /\ assigned_to assigned_pothole = Some "Asha"
  /\ insert_request assigned_pothole
       (after initial
              (trace (Scenario.database [])
                     (openAssignDialog assigned_pothole) []))
     = Postgrest.insert "complaint_status_updates"
         {| su_complaint_id := "c-17";
            su_status := "Assigned";
            su_assigned_to := "Asha";
            su_assigned_contact := "Assigned";
            su_note := "" |}.
Proof.
  assert (H1 : status assigned_pothole = Some "Assigned") by reflexivity.
  assert (H2 : assigned_to assigned_pothole = Some "Asha") by reflexivity.
  split; [exact H1|]. split; [exact H2|].
  destruct (unedited_dialog_submits_status_as_contact
              (Scenario.database []) [] initial assigned_pothole)
    as (_ & H & _).
  destruct (H "Assigned" "Asha" H1 ltac:(discriminate) H2
              ltac:(discriminate)) as (_ & _ & Hi & _).
  exact Hi.
Defined.

(** ** More of the notification gateway *)

Lemma responses_well_formed :
  well_formed_response Gateway.success_response
  /\ forall x, well_formed_response (Gateway.error_response x).
Proof.
  split; [|intros x]; split; cbn; auto; intros h [<-|[<-|[]]]; auto.
Qed.

Lemma preflight_trace (W : Type)
      (answer : forall X, Gateway.gatewayE X -> W -> X * W) (w : W)
      (env : Gateway.Env) :
  run answer (Gateway.serve env "OPTIONS") w
  = (Normal {| Gateway.status := 200;
               Gateway.response_headers := Gateway.corsHeaders;
               Gateway.response_body := Gateway.Text "ok" |}, w, []).
Proof. reflexivity. Qed.

(** A request other than a preflight reads the body once and is
    answered with the success or with an error response. *)
Lemma serve_responds (W : Type)
      (answer : forall X, Gateway.gatewayE X -> W -> X * W) (w : W)
      (env : Gateway.Env) (req_method : string) :
  req_method <> "OPTIONS" ->
  let tr := trace answer (Gateway.serve env req_method) w in
  let resp := result answer (Gateway.serve env req_method) w in
  (exists a, Gateway.parsed_bodies tr = [a])
  /\ (resp = Normal Gateway.success_response
      \/ exists x, resp = Normal (Gateway.error_response x)).
Proof.
  intros Hm tr resp.
  pose proof (serve_outcomes answer w env Hm) as Hout.
  fold tr resp in Hout. unfold served_as in Hout.
  destruct (Gateway.parsed_bodies tr) as [|[parsed|reason] [|b l]];
    try contradiction.
  - split; [eauto|].
    destruct (Gateway.validate parsed) as [c|x].
    + destruct (Gateway.configured env).
      * destruct Hout as (_ & Hout).
        destruct (Gateway.to_string (Gateway.username c));
          [destruct (Gateway.to_string (Gateway.password c));
           [destruct (Gateway.to_string (Gateway.phone c))|]|];
          try (destruct Hout as (_ & _ & Hr); eauto).
        destruct Hout as (_ & [(_ & Hr) | (_ & x & Hr)]); eauto.
      * destruct Hout as (_ & _ & Hout).
        destruct (Gateway.to_string (Gateway.phone c));
          [destruct (Gateway.to_string (Gateway.username c));
           [destruct (Gateway.to_string (Gateway.password c))|]|];
          destruct Hout as (_ & Hr); eauto.
    + destruct Hout as (Hr & _). eauto.
  - split; [eauto|]. destruct Hout as (Hr & _). eauto.
Qed.

(** X11.  The handler never throws: every request, whatever its method
    and body and whatever the provider does, gets a response whose
    status is 200 or 400 and which carries the headers that allow every
    origin.  A preflight gets 200 with the text ok and has no effect at
    all: the body is not read, nothing is logged or sent.  Any other
    request gets one of the two JSON responses, and 200 only together
    with success true. *)
Theorem gateway_always_responds
        (W : Type) (answer : forall X, Gateway.gatewayE X -> W -> X * W)
        (w : W) (env : Gateway.Env) (req_method : string) :
  let tr := trace answer (Gateway.serve env req_method) w in
  let resp := result answer (Gateway.serve env req_method) w in
  (exists r, resp = Normal r /\ well_formed_response r)
  /\ (req_method = "OPTIONS" ->
      tr = []
      /\ resp = Normal {| Gateway.status := 200;
                          Gateway.response_headers := Gateway.corsHeaders;
                          Gateway.response_body := Gateway.Text "ok" |})
  /\ (req_method <> "OPTIONS" ->
      exists r, resp = Normal r
                /\ In ("Content-Type", "application/json")
                      (Gateway.response_headers r)
                /\ ((Gateway.status r = 200
                     /\ r = Gateway.success_response)
                    \/ (Gateway.status r = 400
                        /\ exists x, r = Gateway.error_response x))).
Proof.
  intros tr resp.
  destruct (String.eqb req_method "OPTIONS") eqn:Hm.
  - apply String.eqb_eq in Hm. subst req_method.
    subst tr resp. unfold trace, result. rewrite preflight_trace. cbn.
    split; [|split].
    + eexists. split; [reflexivity|]. split; [left; reflexivity | auto].
    + intros _. split; reflexivity.
    + intros H. contradiction.
  - apply String.eqb_neq in Hm.
    destruct (serve_responds answer w env Hm) as (_ & Hr).
    fold resp in Hr.
    destruct responses_well_formed as [Hok Herr].
    split; [|split].
    + destruct Hr as [Hr | (x & Hr)]; rewrite Hr; eauto.
    + intros H. contradiction.
    + intros _. destruct Hr as [Hr | (x & Hr)]; rewrite Hr.
      * exists Gateway.success_response. split; [reflexivity|].
        split; [cbn; auto|]. left. split; reflexivity.
      * exists (Gateway.error_response x). split; [reflexivity|].
        split; [cbn; auto|]. right. split; [reflexivity | eauto].
Qed.

Lemma configured_values (env : Gateway.Env) :
  Gateway.configured env = true ->
  exists sid token from,
    Gateway.TWILIO_ACCOUNT_SID env = Some sid
    /\ Gateway.TWILIO_AUTH_TOKEN env = Some token
    /\ Gateway.TWILIO_PHONE_NUMBER env = Some from
    /\ sid <> "" /\ token <> "" /\ from <> ""
    /\ forall to username password,
         provider_request env to username password
         = Gateway.sms_request sid token from to
             (Gateway.sms_message username password).
Proof.
  unfold Gateway.configured, provider_request. intros H.
  apply andb_prop in H as [H Hfrom]. apply andb_prop in H as [Hsid Htok].
  destruct (Gateway.TWILIO_ACCOUNT_SID env) as [sid|]; [|discriminate].
  destruct (Gateway.TWILIO_AUTH_TOKEN env) as [token|]; [|discriminate].
  destruct (Gateway.TWILIO_PHONE_NUMBER env) as [from|]; [|discriminate].
  cbn in Hsid, Htok, Hfrom. apply truthy_iff in Hsid, Htok, Hfrom.
  exists sid, token, from. repeat split; auto.
  intros to u p. destruct sid; [contradiction|].
  destruct token; [contradiction|].
  destruct from; [contradiction|]. reflexivity.
Qed.

(** What a run sends and logs. *)
Lemma serve_sends_or_logs (W : Type)
      (answer : forall X, Gateway.gatewayE X -> W -> X * W) (w : W)
      (env : Gateway.Env) (req_method : string) :
  let tr := trace answer (Gateway.serve env req_method) w in
  (Gateway.fetches tr = [] /\ Gateway.logged tr = [])
  \/ (exists parsed c to,
         Gateway.validate parsed = Normal c
         /\ has_text (Gateway.phone c) to
         /\ ((Gateway.configured env = true
              /\ Gateway.logged tr = []
              /\ exists username password,
                   Gateway.fetches tr
                   = [provider_request env to username password])
             \/ (Gateway.configured env = false
                 /\ Gateway.fetches tr = []))).
Proof.
  intros tr.
  destruct (String.eqb req_method "OPTIONS") eqn:Hm.
  - apply String.eqb_eq in Hm. subst req_method. left.
    subst tr. unfold trace. rewrite preflight_trace. split; reflexivity.
  - apply String.eqb_neq in Hm.
    pose proof (serve_outcomes answer w env Hm) as Hout.
    fold tr in Hout. unfold served_as in Hout.
    destruct (Gateway.parsed_bodies tr) as [|[parsed|reason] [|b l]];
      try contradiction.
    + destruct (Gateway.validate parsed) as [c|x] eqn:Hv.
      * destruct (validate_fields parsed Hv) as (_ & to & Hto & _).
        pose proof Hto as Hto'. unfold has_text in Hto'.
        rewrite Hto' in Hout.
        destruct (Gateway.configured env).
        -- destruct Hout as (Hl & Hout).
           destruct (Gateway.to_string (Gateway.username c)) as [u|x];
             [destruct (Gateway.to_string (Gateway.password c)) as [p|x]|];
             try solve [left; destruct Hout as (Hf & _); auto].
           right. exists parsed, c, to. split; [exact Hv|].
           split; [exact Hto|]. left. destruct Hout as (Hf & _).
           split; [reflexivity|]. split; [exact Hl|]. eauto.
        -- right. exists parsed, c, to. split; [exact Hv|].
           split; [exact Hto|]. right. destruct Hout as (Hf & _).
           split; [reflexivity | exact Hf].
      * left. destruct Hout as (_ & Hf & Hl). auto.
    + left. destruct Hout as (_ & Hf & Hl). auto.
Qed.

(** X12.  A run calls the provider at most once and never both calls it
    and writes the credentials to the log: it calls only when the three
    provider variables are set, and logs only when they are not.  Every
    call is a POST to the messages endpoint of the configured account,
    authorised with the account and token, from the configured number
    and to a number that is "+91" followed by exactly ten digits: no
    message is ever sent for a request that failed validation. *)
Theorem gateway_sends_only_validated_numbers
        (W : Type) (answer : forall X, Gateway.gatewayE X -> W -> X * W)
        (w : W) (env : Gateway.Env) (req_method : string) :
  let tr := trace answer (Gateway.serve env req_method) w in
  (Gateway.fetches tr = [] \/ Gateway.logged tr = [])
  /\ (List.length (Gateway.fetches tr) <= 1)%nat
  /\ (Gateway.fetches tr <> [] -> Gateway.configured env = true)
  /\ (Gateway.logged tr <> [] -> Gateway.configured env = false)
  /\ forall r, In r (Gateway.fetches tr) ->
       Gateway.method r = "POST"
       /\ exists sid token from p,
           Gateway.TWILIO_ACCOUNT_SID env = Some sid
           /\ Gateway.TWILIO_AUTH_TOKEN env = Some token
           /\ Gateway.TWILIO_PHONE_NUMBER env = Some from
           /\ Gateway.url r
              = "https://api.twilio.com/2010-04-01/Accounts/" ++ sid
                ++ "/Messages.json"
           /\ field "Authorization" (Gateway.headers r)
              = Some ("Basic " ++ Base64.encode (sid ++ ":" ++ token))
           /\ field "From" (Gateway.form r) = Some from
           /\ field "To" (Gateway.form r) = Some p
           /\ plus91_ten_digits p.
Proof.
  intros tr.
  destruct (serve_sends_or_logs answer w env req_method)
    as [(Hf & Hl)
       | (parsed & c & to & Hv & Hto
          & [(Hcfg & Hl & u & p & Hf) | (Hcfg & Hf)])];
    fold tr in Hf; try fold tr in Hl; rewrite Hf; try rewrite Hl.
  - split; [left; reflexivity|]. split; [cbn; lia|].
    split; [intros H; contradiction|]. split; [intros H; contradiction|].
    intros r [].
  - split; [right; reflexivity|]. split; [cbn; lia|].
    split; [intros _; exact Hcfg|]. split; [intros H; contradiction|].
    intros r [<-|[]].
    destruct (configured_values env Hcfg)
      as (sid & token & from & Hsid & Htok & Hfrom & _ & _ & _ & Hreq).
    rewrite Hreq.
    destruct (validate_fields parsed Hv) as (_ & to' & Hto' & Hphone).
    unfold has_text in Hto, Hto'. rewrite Hto in Hto'.
    injection Hto' as <-.
    split; [reflexivity|].
    exists sid, token, from, to.
    repeat (split; [assumption || reflexivity|]).
    exact Hphone.
  - split; [left; reflexivity|]. split; [cbn; lia|].
    split; [intros H; contradiction|]. split; [intros _; exact Hcfg|].
    intros r [].
Qed.

Lemma provider_decides_response (W : Type)
      (answer : forall X, Gateway.gatewayE X -> W -> X * W) (w : W)
      (env : Gateway.Env) (req_method : string) :
  provider_decides (result answer (Gateway.serve env req_method) w)
                   (trace answer (Gateway.serve env req_method) w).
Proof.
  destruct (String.eqb req_method "OPTIONS") eqn:Hm.
  - apply String.eqb_eq in Hm. subst req_method.
    unfold result, trace. rewrite preflight_trace. reflexivity.
  - unfold provider_decides, provider_failure, result, trace, Gateway.serve.
    rewrite Hm. cbn.
    answered answer. destruct a as [parsed|reason]; cbn.
    + destruct (Gateway.validate parsed) as [c|x]; cbn.
      * unfold Gateway.send.
        destruct (Gateway.configured env); cbn.
        -- destruct (Gateway.to_string (Gateway.username c)) as [u|x]; cbn;
             [destruct (Gateway.to_string (Gateway.password c)) as [p|x];
              cbn;
              [destruct (Gateway.to_string (Gateway.phone c)) as [to|x];
               cbn|]|];
             try solve [answered answer; reflexivity].
           answered answer. destruct a as [response|reason]; cbn.
           ++ destruct (Gateway.ok response) eqn:Hok; cbn.
              ** unfold fetch_answers, provider_errors; cbn. rewrite Hok.
                 split; reflexivity.
              ** answered answer. destruct a as [errorData|reason]; cbn.
                 --- destruct (Gateway.member errorData "message")
                       as [m|x] eqn:Hmem; cbn;
                       [destruct (Gateway.truthy m) eqn:Htruthy;
                        [destruct (Gateway.to_string m) eqn:Htext|]; cbn|];
                       answered answer;
                       unfold fetch_answers, provider_errors; cbn;
                       rewrite Hok, ?Hmem; cbn;
                       rewrite ?Htruthy, ?Htext; reflexivity.
                 --- answered answer.
                     unfold fetch_answers, provider_errors; cbn.
                     rewrite Hok. reflexivity.
           ++ answered answer. split; reflexivity.
        -- unfold Gateway.log_sms, Gateway.console_log, Gateway.after_text.
           cbn. answered answer.
           destruct (Gateway.to_string (Gateway.phone c)) as [to|x]; cbn;
             [answered answer; answered answer;
              destruct (Gateway.to_string (Gateway.username c)) as [u|x];
              cbn;
              [answered answer;
               destruct (Gateway.to_string (Gateway.password c)) as [p|x];
               cbn; [answered answer|]|]|];
             answered answer; reflexivity.
      * answered answer. reflexivity.
    + answered answer. reflexivity.
Qed.

(** X13.  When the provider answers with a response that is not ok, the
    request gets the 400 response, and its error text comes from the
    body of the provider's response: "Twilio Error: " followed by the
    message of that body when it has a message that is a non-empty
    text, and by "Failed to send SMS." when the message is missing,
    null or empty.  When the call itself is rejected the error text is
    the message of the rejection. *)
Theorem gateway_reports_provider_failure
        (W : Type) (answer : forall X, Gateway.gatewayE X -> W -> X * W)
        (w : W) (env : Gateway.Env) (req_method : string) :
  let tr := trace answer (Gateway.serve env req_method) w in
  let resp := result answer (Gateway.serve env req_method) w in
  (forall response errorData,
      fetch_answers tr = [Fulfilled response] ->
      Gateway.ok response = false ->
      provider_errors tr = [Fulfilled errorData] ->
      Gateway.nullish errorData = false ->
      (forall m, Gateway.property errorData "message" = Gateway.JString m ->
                 m <> "" ->
                 resp = Normal (Gateway.error_response
                                  (ErrorObject ("Twilio Error: " ++ m))))
      /\ (Gateway.truthy (Gateway.property errorData "message") = false ->
          resp = Normal (Gateway.error_response
                           (ErrorObject "Twilio Error: Failed to send SMS."))))
  /\ (forall reason,
         fetch_answers tr = [Rejected reason] ->
         resp = Normal (Gateway.error_response reason)
         /\ Gateway.status (Gateway.error_response reason) = 400).
Proof.
  intros tr resp.
  pose proof (provider_decides_response answer w env req_method) as Hdec.
  fold tr resp in Hdec. unfold provider_decides in Hdec.
  split.
  - intros response errorData Hf Hok He Hnn.
    rewrite Hf, Hok, He in Hdec.
    unfold provider_failure, Gateway.member in Hdec. rewrite Hnn in Hdec.
    split.
    + intros m Hm Hne. rewrite Hdec, Hm. cbn [Gateway.truthy Gateway.to_string].
      apply truthy_iff in Hne. rewrite Hne. reflexivity.
    + intros Ht. rewrite Hdec, Ht. reflexivity.
  - intros reason Hf. rewrite Hf in Hdec. destruct Hdec as [Hr _].
    split; [exact Hr | reflexivity].
Qed.

(** The provider of the scenario refuses the message with a reason. *)
Lemma gateway_reports_provider_failure_witness :
  fetch_answers
    (trace (Scenario.provider Scenario.welcome false)
           (Gateway.serve with_provider "POST") tt)
  = [Fulfilled {| Gateway.ok := false |}]
  /\ result (Scenario.provider Scenario.welcome false)
            (Gateway.serve with_provider "POST") tt
     = Normal (Gateway.error_response
                 (ErrorObject "Twilio Error: Invalid 'To' number")).
Proof.
  assert (H1 : fetch_answers
                 (trace (Scenario.provider Scenario.welcome false)
                        (Gateway.serve with_provider "POST") tt)
               = [Fulfilled {| Gateway.ok := false |}]) by reflexivity.
  split; [exact H1|].
  destruct (gateway_reports_provider_failure
              (Scenario.provider Scenario.welcome false) tt
              with_provider "POST") as (H & _).
  destruct (H {| Gateway.ok := false |}
              (Gateway.JObject
                 [("message", Gateway.JString "Invalid 'To' number")])
              H1 eq_refl eq_refl eq_refl) as (Hm & _).
  apply (Hm "Invalid 'To' number"); [reflexivity | discriminate].
Defined.

Lemma body_read_outcomes (W : Type)
      (answer : forall X, Gateway.gatewayE X -> W -> X * W) (w : W)
      (env : Gateway.Env) (req_method : string) (a : awaited Gateway.jsvalue) :
  Gateway.parsed_bodies (trace answer (Gateway.serve env req_method) w) = [a] ->
  served_as env (result answer (Gateway.serve env req_method) w)
            (trace answer (Gateway.serve env req_method) w).
Proof.
  intros Hb.
  destruct (String.eqb req_method "OPTIONS") eqn:Hm.
  - apply String.eqb_eq in Hm. subst req_method.
    unfold trace in Hb. rewrite preflight_trace in Hb. discriminate Hb.
  - apply String.eqb_neq in Hm. apply serve_outcomes. exact Hm.
Qed.

(** X14.  A request whose body is of no use is answered 400 before
    anything is sent or logged.  When the body cannot be read as JSON
    the error text is the message of the parse error (and "An unknown
    error occurred" if what was thrown is not an error object); when the
    body is null it is the message of a type error; when it is a value
    that is not an object, be it a text, a number, a boolean or an
    array, it is the missing-parameters message. *)
Theorem gateway_rejects_unusable_body
        (W : Type) (answer : forall X, Gateway.gatewayE X -> W -> X * W)
        (w : W) (env : Gateway.Env) (req_method : string) :
  let tr := trace answer (Gateway.serve env req_method) w in
  let resp := result answer (Gateway.serve env req_method) w in
  (forall reason,
      Gateway.parsed_bodies tr = [Rejected reason] ->
      resp = Normal (Gateway.error_response reason)
      /\ Gateway.fetches tr = [] /\ Gateway.logged tr = []
      /\ Gateway.errorMessage reason
         = match reason with
           | ErrorObject message => message
           | Value _ => "An unknown error occurred"
           end)
  /\ (Gateway.parsed_bodies tr = [Fulfilled Gateway.JNull] ->
      (exists message,
          resp = Normal (Gateway.error_response (ErrorObject message)))
      /\ Gateway.fetches tr = [] /\ Gateway.logged tr = [])
  /\ (forall parsed,
         Gateway.parsed_bodies tr = [Fulfilled parsed] ->
         not_an_object parsed = true ->
         resp = Normal (Gateway.error_response (ErrorObject missing_message))
         /\ Gateway.fetches tr = [] /\ Gateway.logged tr = []).
Proof.
  intros tr resp. split; [|split].
  - intros reason Hb.
    pose proof (body_read_outcomes answer w env req_method Hb) as Hout.
    fold tr resp in Hout. unfold served_as in Hout. rewrite Hb in Hout.
    destruct Hout as (Hr & Hf & Hl).
    repeat (split; [assumption|]). destruct reason; reflexivity.
  - intros Hb.
    pose proof (body_read_outcomes answer w env req_method Hb) as Hout.
    fold tr resp in Hout. unfold served_as in Hout. rewrite Hb in Hout.
    cbv [Gateway.validate Gateway.nullish] in Hout.
    destruct Hout as (Hr & Hf & Hl). split; [eauto|]. split; assumption.
  - intros parsed Hb Hno.
    pose proof (body_read_outcomes answer w env req_method Hb) as Hout.
    fold tr resp in Hout. unfold served_as in Hout. rewrite Hb in Hout.
    assert (Hv : Gateway.validate parsed = Throw (ErrorObject missing_message)).
    { destruct parsed; try discriminate Hno; reflexivity. }
    rewrite Hv in Hout. exact Hout.
Qed.

(** A body that is the text of a phone number, not an object. *)
Lemma gateway_rejects_unusable_body_witness :
  Gateway.parsed_bodies
    (trace (Scenario.provider (Gateway.JString "+911234567890") true)
           (Gateway.serve with_provider "POST") tt)
  = [Fulfilled (Gateway.JString "+911234567890")]
  /\ not_an_object (Gateway.JString "+911234567890") = true
  /\ result (Scenario.provider (Gateway.JString "+911234567890") true)
            (Gateway.serve with_provider "POST") tt
     = Normal (Gateway.error_response (ErrorObject missing_message)).
Proof.
  assert (H1 : Gateway.parsed_bodies
                 (trace (Scenario.provider
                           (Gateway.JString "+911234567890") true)
                        (Gateway.serve with_provider "POST") tt)
               = [Fulfilled (Gateway.JString "+911234567890")])
    by reflexivity.
  assert (H2 : not_an_object (Gateway.JString "+911234567890") = true)
    by reflexivity.
  split; [exact H1|]. split; [exact H2|].
  destruct (gateway_rejects_unusable_body
              (Scenario.provider (Gateway.JString "+911234567890") true) tt
              with_provider "POST") as (_ & _ & H).
  destruct (H _ H1 H2) as (Hr & _). exact Hr.
Defined.

(** ** The complaint map *)

Lemma pick_In {A B} (f : A -> option B) (l : list A) (b : B) :
  In b (pick f l) <-> exists a, In a l /\ f a = Some b.
Proof.
  induction l as [|x l IH]; cbn.
  - split; [intros [] | intros (a & [] & _)].
  - destruct (f x) as [y|] eqn:Hx; cbn; rewrite IH; split.
    + intros [<- | (a & Hin & Ha)]; eauto.
    + intros (a & [<- | Hin] & Ha); [left; congruence | right; eauto].
    + intros (a & Hin & Ha); eauto.
    + intros (a & [<- | Hin] & Ha); [congruence | eauto].
Qed.

Lemma pick_length {A B} (f : A -> option B) (l : list A) :
  (List.length (pick f l) <= List.length l)%nat.
Proof.
  induction l as [|x l IH]; cbn; [lia|].
  destruct (f x); cbn; lia.
Qed.

Lemma nonzero_iff (x : ComplaintMap.coordinate) :
  ComplaintMap.nonzero x = true <-> QArith_base.Qnum x <> 0.
Proof.
  unfold ComplaintMap.nonzero. rewrite negb_true_iff. apply Z.eqb_neq.
Qed.

Lemma marker_of_none (r : ComplaintMap.Row) :
  ComplaintMap.located r ->
  (ComplaintMap.marker_of r = None
   <-> ComplaintMap.is_zero (ComplaintMap.gps_latitude r)
       \/ ComplaintMap.is_zero (ComplaintMap.gps_longitude r)).
Proof.
  unfold ComplaintMap.located, ComplaintMap.marker_of, ComplaintMap.is_zero.
  intros [Hla Hlo].
  destruct (ComplaintMap.gps_latitude r) as [la|]; [|contradiction].
  destruct (ComplaintMap.gps_longitude r) as [lo|]; [|contradiction].
  unfold ComplaintMap.nonzero.
  destruct (Z.eqb_spec (QArith_base.Qnum la) 0) as [Ea|Ea];
    destruct (Z.eqb_spec (QArith_base.Qnum lo) 0) as [Eo|Eo]; cbn; split;
    try discriminate; eauto.
  intros [(q & Hq & Hz) | (q & Hq & Hz)]; inversion Hq; subst; contradiction.
Qed.

(** X15.  The map draws a marker for a complaint exactly when both of
    its coordinates are there and are not zero.  The request keeps the
    rows whose coordinates are not null, so among the rows it returns
    those left without a marker are exactly the ones with a zero
    latitude or a zero longitude.  Every marker stands at the
    coordinates of a row of the list and carries its id, and there are
    never more markers than rows. *)
Theorem map_leaves_out_zero_coordinates (l : list ComplaintMap.Row) :
  let markers := pick ComplaintMap.marker_of l in
  (List.length markers <= List.length l)%nat
  /\ (forall r, In r l -> ComplaintMap.located r ->
        (ComplaintMap.marker_of r = None
         <-> ComplaintMap.is_zero (ComplaintMap.gps_latitude r)
             \/ ComplaintMap.is_zero (ComplaintMap.gps_longitude r)))
  /\ (forall r m, In r l -> ComplaintMap.marker_of r = Some m ->
                  In m markers)
  /\ (forall m, In m markers ->
        exists r la lo,
          In r l
          /\ ComplaintMap.key m = ComplaintMap.id r
          /\ ComplaintMap.position m = (la, lo)
          /\ ComplaintMap.gps_latitude r = Some la
          /\ ComplaintMap.gps_longitude r = Some lo
          /\ QArith_base.Qnum la <> 0 /\ QArith_base.Qnum lo <> 0).
Proof.
  intros markers. split; [apply pick_length|].
  split; [intros r _ Hloc; apply marker_of_none; exact Hloc|].
  split.
  - intros r m Hin Hm. apply pick_In. eauto.
  - intros m Hm. apply pick_In in Hm. destruct Hm as (r & Hin & Hm).
    unfold ComplaintMap.marker_of in Hm.
    destruct (ComplaintMap.gps_latitude r) as [la|] eqn:Hla; [|discriminate].
    destruct (ComplaintMap.gps_longitude r) as [lo|] eqn:Hlo; [|discriminate].
    destruct (ComplaintMap.nonzero la) eqn:Na; [|discriminate].
    destruct (ComplaintMap.nonzero lo) eqn:No; [|discriminate].
    cbn in Hm. inversion Hm; subst m. cbn.
    exists r, la, lo. apply nonzero_iff in Na, No.
    repeat split; auto.
Qed.

(** A complaint on the equator is returned by the request and is not
    drawn. *)
Lemma map_leaves_out_zero_coordinates_witness :
  In on_the_equator [on_the_equator]
  /\ ComplaintMap.located on_the_equator
  /\ ComplaintMap.is_zero (ComplaintMap.gps_latitude on_the_equator)
  /\ ComplaintMap.marker_of on_the_equator = None.
Proof.
  assert (H1 : In on_the_equator [on_the_equator]) by (left; reflexivity).
  assert (H2 : ComplaintMap.located on_the_equator)
    by (split; discriminate).
  assert (H3 : ComplaintMap.is_zero (ComplaintMap.gps_latitude on_the_equator)).
  { eexists. split; reflexivity. }
  split; [exact H1|]. split; [exact H2|]. split; [exact H3|].
  destruct (map_leaves_out_zero_coordinates [on_the_equator])
    as (_ & H & _).
  apply (H on_the_equator H1 H2). left. exact H3.
Defined.

Lemma locations_outcomes (W : Type)
      (answer : forall X, ComplaintMap.mapE X -> W -> X * W) (w : W) :
  let tr := trace answer ComplaintMap.fetchComplaintLocations w in
  (exists r,
      ComplaintMap.answers tr = [Fulfilled r]
      /\ Postgrest.error r = None
      /\ ComplaintMap.calls tr = [(ComplaintMap.locations_query, true)]
      /\ ComplaintMap.setters tr
         = [ComplaintMap.setLoading true;
            ComplaintMap.setComplaints (data_or_empty r);
            ComplaintMap.setLoading false])
  \/ (ComplaintMap.calls tr = [(ComplaintMap.locations_query, false)]
      /\ (forall r, In (Fulfilled r) (ComplaintMap.answers tr) ->
                    Postgrest.error r <> None)
      /\ ComplaintMap.setters tr
         = [ComplaintMap.setLoading true; ComplaintMap.setLoading false]).
Proof.
  unfold trace, ComplaintMap.fetchComplaintLocations. cbn.
  do 2 answered answer. destruct a as [r|reason]; cbn.
  - destruct (Postgrest.error r) as [e|] eqn:He; cbn.
    + do 2 answered answer. right.
      unfold ComplaintMap.calls, ComplaintMap.setters, ComplaintMap.answers;
        cbn. rewrite He. repeat split. intros r' [H|[]]. congruence.
    + do 2 answered answer. left. exists r.
      unfold ComplaintMap.calls, ComplaintMap.setters, ComplaintMap.answers;
        cbn. rewrite He. repeat split.
  - do 2 answered answer. right.
    unfold ComplaintMap.calls, ComplaintMap.setters, ComplaintMap.answers;
      cbn. repeat split. intros r' [H|[]]. discriminate.
Qed.

(** X16.  The map asks once, for the complaints whose latitude and
    longitude are both not null, with no other predicate and no range.
    Whatever the answer, the loading flag ends off, so the skeleton
    gives way to the map.  After a success the markers are those of the
    rows of the answer (none when the data is null); after a failure the
    list held before is kept and drawn. *)
Theorem map_fetch_always_shows_the_map
        (W : Type) (answer : forall X, ComplaintMap.mapE X -> W -> X * W)
        (w : W) (st : ComplaintMap.State) :
  let tr := trace answer ComplaintMap.fetchComplaintLocations w in
  let st' := ComplaintMap.after st tr in
  map fst (ComplaintMap.calls tr) = [ComplaintMap.locations_query]
  /\ ComplaintMap.negated ComplaintMap.locations_query
     = [("gps_latitude", "is", None); ("gps_longitude", "is", None)]
  /\ Postgrest.eqs (ComplaintMap.selection ComplaintMap.locations_query) = []
  /\ Postgrest.rows (ComplaintMap.selection ComplaintMap.locations_query)
     = None
  /\ ComplaintMap.loading st' = false
  /\ ComplaintMap.render st'
     = ComplaintMap.MapContainer
         (pick ComplaintMap.marker_of (ComplaintMap.complaints st'))
  /\ (In (ComplaintMap.locations_query, false) (ComplaintMap.calls tr) ->
      ComplaintMap.complaints st' = ComplaintMap.complaints st)
  /\ (forall r, In (Fulfilled r) (ComplaintMap.answers tr) ->
                Postgrest.error r = None ->
                ComplaintMap.complaints st'
                = match Postgrest.data r with Some l => l | None => [] end).
Proof.
  intros tr st'.
  destruct (locations_outcomes answer w)
    as [(r & Ha & He & Hc & Hs) | (Hc & Ha & Hs)];
    fold tr in Ha, Hc, Hs; subst st'; unfold ComplaintMap.after;
    rewrite Hc, Hs; cbn.
  - do 6 (split; [reflexivity|]). split.
    + intros [H|[]]. inversion H.
    + intros r' Hin _. rewrite Ha in Hin. destruct Hin as [H|[]].
      inversion H; subst. reflexivity.
  - do 6 (split; [reflexivity|]). split.
    + intros _. reflexivity.
    + intros r' Hin Herr. exfalso. exact (Ha r' Hin Herr).
Qed.

(** The first fetch of the map is refused: the map is shown, empty. *)
Lemma map_fetch_always_shows_the_map_witness :
  In (ComplaintMap.locations_query, false)
     (ComplaintMap.calls
        (trace (map_database [on_the_equator] true)
               ComplaintMap.fetchComplaintLocations tt))
  /\ ComplaintMap.complaints
       (ComplaintMap.after ComplaintMap.initial
          (trace (map_database [on_the_equator] true)
                 ComplaintMap.fetchComplaintLocations tt))
     = [].
Proof.
  assert (H : In (ComplaintMap.locations_query, false)
                 (ComplaintMap.calls
                    (trace (map_database [on_the_equator] true)
                           ComplaintMap.fetchComplaintLocations tt))).
  { left. reflexivity. }
  split; [exact H|].
  destruct (map_fetch_always_shows_the_map
              (map_database [on_the_equator] true) tt ComplaintMap.initial)
    as (_ & _ & _ & _ & _ & _ & Hfail & _).
  exact (Hfail H).
Defined.
